(** * google-photos-magic: the OAuth flow, the token store, the album
    transport and the list command, embedded from the Go sources.

    Layout follows the Go packages: [domain] (records and interfaces),
    [usecase], [repository], [delivery].  Code that talks to an interface
    or to the Go runtime is written in a small program monad [Prog] whose
    calls are answered by an environment; the repositories that touch the
    file system are written as state transformers over a [World]. *)

From Stdlib Require Import ZArith Lia.
From stdpp Require Import base strings pretty gmap list.

Open Scope Z_scope.

(** ** Go values *)

(** A Go [error] is identified with the text of its [Error()] method;
    [fmt.Errorf("...: %v", err)] is then string concatenation. *)
Definition error : Type := string.

(** The usual Go return pair [(T, error)] where exactly one side is set. *)
Inductive result (A : Type) : Type :=
| Ok (a : A)
| Err (e : error).
Arguments Ok {A} a.
Arguments Err {A} e.

(** ** Programs over an interface

    [Printf] is [log.Printf]; [Call e k] calls the method or runtime
    primitive [e] and continues with its answer. *)
Inductive Prog (E : Type -> Type) (R : Type) : Type :=
| Ret (r : R)
| Printf (line : string) (k : Prog E R)
| Call {X : Type} (e : E X) (k : X -> Prog E R).
Arguments Ret {E R} r.
Arguments Printf {E R} line k.
Arguments Call {E R X} e k.

Fixpoint prog_bind {E A B} (k : A -> Prog E B) (p : Prog E A) : Prog E B :=
  match p with
  | Ret a => k a
  | Printf l p' => Printf l (prog_bind k p')
  | Call e c => Call e (fun x => prog_bind k (c x))
  end.

#[global] Instance prog_mret {E} : MRet (Prog E) := fun _ a => Ret a.
#[global] Instance prog_mbind {E} : MBind (Prog E) := fun _ _ k p => prog_bind k p.

Definition call {E X} (e : E X) : Prog E X := Call e Ret.
Definition logPrintf {E} (line : string) : Prog E unit := Printf line (Ret tt).

(** What an execution shows from outside: the log lines and the calls
    with their answers, in order. *)
Inductive Obs (E : Type -> Type) : Type :=
| Line (s : string)
| Called {X : Type} (e : E X) (x : X).
Arguments Line {E} s.
Arguments Called {E X} e x.

(** An environment answers every call and threads its own state. *)
Definition handler (E : Type -> Type) (S : Type) : Type :=
  forall X, E X -> S -> X * S.

Record Run (R S : Type) (E : Type -> Type) : Type := mkRun {
  returned : R;
  final : S;
  trace : list (Obs E)
}.
Arguments mkRun {R S E} returned final trace.
Arguments returned {R S E} r.
Arguments final {R S E} r.
Arguments trace {R S E} r.

Fixpoint exec {E R S} (h : handler E S) (p : Prog E R) (s : S) : Run R S E :=
  match p with
  | Ret r => mkRun r s []
  | Printf l k =>
      let run := exec h k s in
      mkRun (returned run) (final run) (Line l :: trace run)
  | Call e k =>
      let '(x, s') := h _ e s in
      let run := exec h (k x) s' in
      mkRun (returned run) (final run) (Called e x :: trace run)
  end.

(** The log lines of a trace, and its calls without their answers. *)
Definition lines {E} (tr : list (Obs E)) : list string :=
  omap (fun o => match o with Line l => Some l | Called _ _ => None end) tr.

Definition calls {E} (tr : list (Obs E)) : list (sigT E) :=
  omap (fun o => match o with Line _ => None | Called e _ => Some (existT _ e) end) tr.

(** ** Time, as the [time] package has it *)

(** An instant, in nanoseconds since the Unix epoch; a [Duration] is a
    number of nanoseconds. *)
Definition Time : Type := Z.
Definition Duration : Type := Z.

Definition Second : Duration := 1000000000.
Definition Minute : Duration := 60 * Second.

(** [t.Unix()]: whole seconds since the epoch. *)
Definition Unix (t : Time) : Z := t `div` Second.

(** The zero [time.Time], January 1 of year 1, and [t.IsZero()]. *)
Definition zeroTime : Time := -62135596800 * Second.
Definition IsZero (t : Time) : bool := bool_decide (t = zeroTime).

(** ** Package [domain] *)
Module domain.

(** [Album] and [AlbumsResponse] of the album file. *)
Record Album : Type := mkAlbum {
  ID : string;
  Title : string
}.

Record AlbumsResponse : Type := mkAlbumsResponse {
  Albums : list Album;
  NextPageToken : string
}.

(** The interface [AlbumRepository]: one constructor per method, indexed
    by what the method returns. *)
Inductive AlbumRepository : Type -> Type :=
| ListAlbums : AlbumRepository (result AlbumsResponse)
| GetAlbumByID (id : string) : AlbumRepository (result Album)
| CreateAlbum (title : string) : AlbumRepository (result Album)
| FetchNextPage (nextPageToken : string) : AlbumRepository (result AlbumsResponse).

(** The fields of [oauth2.Config] that the tests of the use case fill in. *)
Record Config : Type := mkConfig {
  ClientID : string;
  ClientSecret : string;
  RedirectURL : string;
  Scopes : list string;
  AuthURL : string;
  TokenURL : string
}.

(** [oauth2.Token]. *)
Record Token : Type := mkToken {
  AccessToken : string;
  TokenType : string;
  RefreshToken : string;
  Expiry : Time
}.

(** The interface [OAuthService].  [LoadToken] keeps both halves of its
    Go pair, because the repository returns a token together with the
    decoding error.  [GetAuthURLWithState] is the method the local
    server flow calls. *)
Inductive OAuthService : Type -> Type :=
| GetClient : OAuthService (result Config)
| LoadToken : OAuthService (option Token * option error)
| SaveToken (tok : Token) : OAuthService (option error)
| ExchangeCode (code : string) : OAuthService (result Token)
| GetAuthURL : OAuthService string
| GetAuthURLWithState (state : string) : OAuthService string.

End domain.

(** ** The pieces of [net/http] and of the Go runtime the local server
  flow uses *)
Module http.

Definition StatusOK : Z := 200.

(** [url.Values]: a map from a key to its values in order of appearance. *)
Definition Get (query : gmap string (list string)) (key : string) : string :=
  match query !! key with
  | Some (v :: _) => v
  | _ => ""
  end.

(** An incoming request: [r.URL.Path] and [r.URL.Query()]. *)
Record Request : Type := mkRequest {
  Path : string;
  Query : gmap string (list string)
}.

(** A message put on one of the two channels of the flow. *)
Inductive Signal : Type :=
| OnCodeChan (code : string)
| OnErrChan (err : error).

(** What a request handler can do: write to the [ResponseWriter], answer
    [http.NotFound], send on a channel. *)
Inductive HandlerE : Type -> Type :=
| HeaderSet (key value : string) : HandlerE unit
| WriteHeader (status : Z) : HandlerE unit
| Write (body : string) : HandlerE unit
| NotFound : HandlerE unit
| Send (s : Signal) : HandlerE unit.

Record Server : Type := mkServer {
  Addr : string;
  Handler : Request -> Prog HandlerE unit
}.

Definition ErrServerClosed : error := "http: Server closed".

(** The goroutine that runs the listener. *)
Inductive GoE : Type -> Type :=
| ListenAndServe (srv : Server) : GoE (option error)
| GoSend (s : Signal) : GoE unit.

(** The case of the [select] that fired. *)
Inductive Selected : Type :=
| RecvCode (code : string)
| RecvErr (err : error)
| TimeAfter.

(** The client side: a request as [http.NewRequest] builds it, and the
    response to it.  [RespBody] is the stream behind [resp.Body]. *)
Record ClientRequest : Type := mkClientRequest {
  Method : string;
  URL : string;
  Header : gmap string (list string);
  Body : option string
}.

Definition SetHeader (key value : string) (req : ClientRequest) : ClientRequest :=
  mkClientRequest (Method req) (URL req) (<[key := [value]]> (Header req)) (Body req).

Record Response (RespBody : Type) : Type := mkResponse {
  StatusCode : Z;
  Status : string;
  RespBodyOf : RespBody
}.
Arguments mkResponse {RespBody} StatusCode Status RespBodyOf.
Arguments StatusCode {RespBody} r.
Arguments Status {RespBody} r.
Arguments RespBodyOf {RespBody} r.

(** [client.Do]. *)
Inductive ClientE (RespBody : Type) : Type -> Type :=
| Do (req : ClientRequest) : ClientE RespBody (result (Response RespBody)).
Arguments Do {RespBody} req.

End http.

(** ** What the OAuth use case can call

    Its [OAuthService], the clock, and the runtime primitives of the local
    server flow: making the two buffered channels, starting a goroutine,
    the three-way [select] with its timer, and [server.Shutdown] under a
    deadline. *)
Inductive Env : Type -> Type :=
| Service {X : Type} (m : domain.OAuthService X) : Env X
| TimeNow : Env Time
| MakeChans : Env unit
| Go (g : Prog http.GoE unit) : Env unit
| Select (timeout : Duration) : Env http.Selected
| Shutdown (srv : http.Server) (grace : Duration) : Env (option error).

(** The calls a trace makes on the service, the timers of its [select]s,
    and the grace periods of its shutdowns. *)
Definition serviceCalls (tr : list (Obs Env)) : list (sigT domain.OAuthService) :=
  omap (fun o =>
    match o with
    | Called (Service m) _ => Some (existT _ m)
    | _ => None
    end) tr.

Definition timers (tr : list (Obs Env)) : list Duration :=
  omap (fun o =>
    match o with
    | Called (Select timeout) _ => Some timeout
    | _ => None
    end) tr.

Definition shutdowns (tr : list (Obs Env)) : list Duration :=
  omap (fun o =>
    match o with
    | Called (Shutdown _ grace) _ => Some grace
    | _ => None
    end) tr.

(** The cases its [select]s fired. *)
Definition selected (tr : list (Obs Env)) : list http.Selected :=
  omap (fun o =>
    match o with
    | Line _ => None
    | Called e x =>
        match e in Env X return X -> option http.Selected with
        | Select _ => fun sel => Some sel
        | _ => fun _ => None
        end x
    end) tr.

(** The state strings a trace hands to [GetAuthURLWithState]. *)
Definition mintedStates (tr : list (Obs Env)) : list string :=
  omap (fun o =>
    match o with
    | Called (Service (domain.GetAuthURLWithState state)) _ => Some state
    | _ => None
    end) tr.

(** An environment that answers [Shutdown] with [ans] and is [h]
    otherwise, state changes included. *)
Definition answerShutdown {S} (ans : option error) (h : handler Env S) : handler Env S :=
  fun X e =>
    match e in Env X return S -> X * S with
    | Shutdown srv grace => fun s => (ans, (h _ (Shutdown srv grace) s).2)
    | e' => h _ e'
    end.

(** ** [golang.org/x/oauth2]: when a token counts as valid *)
Module oauth2.
Import domain.

Definition defaultExpiryDelta : Duration := 10 * Second.

(** [t.expired()]: a zero expiry never expires; otherwise the token is
    expired once its expiry, moved ten seconds earlier, is before now. *)
Definition expired (t : Token) : Prog Env bool :=
  if IsZero (Expiry t) then mret false
  else now ← call TimeNow; mret (bool_decide (Expiry t - defaultExpiryDelta < now)).

(** [t.Valid()], on a possibly nil pointer. *)
Definition Valid (t : option Token) : Prog Env bool :=
  match t with
  | None => mret false
  | Some t =>
      if decide (AccessToken t = "") then mret false
      else e ← expired t; mret (negb e)
  end.

End oauth2.

(** ** Package [usecase] *)
Module usecase.
Import domain.

(** *** [AlbumUseCase], over its [repo] *)

Definition ListAlbums : Prog AlbumRepository (result AlbumsResponse) :=
  logPrintf "Fetching albums...";;
  r ← call domain.ListAlbums;
  match r with
  | Err err =>
      logPrintf ("Failed to fetch albums: " +:+ err);;
      mret (Err err)
  | Ok response =>
      logPrintf ("Successfully fetched " +:+ pretty (length (Albums response)) +:+ " albums");;
      (if decide (NextPageToken response ≠ "")
       then logPrintf "More albums available on next page"
       else mret tt);;
      mret (Ok response)
  end.

Definition GetAlbumByID (id : string) : Prog AlbumRepository (result Album) :=
  logPrintf ("Fetching album with ID: " +:+ id);;
  r ← call (domain.GetAlbumByID id);
  match r with
  | Err err =>
      logPrintf ("Failed to fetch album " +:+ id +:+ ": " +:+ err);;
      mret (Err err)
  | Ok album =>
      logPrintf ("Successfully fetched album: " +:+ Title album);;
      mret (Ok album)
  end.

Definition CreateAlbum (title : string) : Prog AlbumRepository (result Album) :=
  logPrintf ("Creating album with title: " +:+ title);;
  r ← call (domain.CreateAlbum title);
  match r with
  | Err err =>
      logPrintf ("Failed to create album " +:+ title +:+ ": " +:+ err);;
      mret (Err err)
  | Ok album =>
      logPrintf ("Successfully created album: " +:+ Title album +:+ " with ID: " +:+ ID album);;
      mret (Ok album)
  end.

Definition FetchNextPage (nextPageToken : string) : Prog AlbumRepository (result AlbumsResponse) :=
  logPrintf "Fetching next page of albums...";;
  r ← call (domain.FetchNextPage nextPageToken);
  match r with
  | Err err =>
      logPrintf ("Failed to fetch next page: " +:+ err);;
      mret (Err err)
  | Ok response =>
      logPrintf ("Successfully fetched " +:+ pretty (length (Albums response)) +:+ " albums from next page");;
      mret (Ok response)
  end.

(** *** [OAuthUseCase], over its [oauthService] *)

Definition oauthService {X} (m : OAuthService X) : Prog Env X := call (Service m).

Definition AuthenticateClient : Prog Env (result Config) :=
  logPrintf "Starting OAuth2 authentication...";;
  c ← oauthService GetClient;
  match c with
  | Err err =>
      logPrintf ("Failed to get OAuth config: " +:+ err);;
      mret (Err err)
  | Ok config =>
      '(token, err) ← oauthService domain.LoadToken;
      match err with
      | Some _ =>
          logPrintf "No existing token found, starting OAuth flow...";;
          mret (Ok config)
      | None =>
          valid ← oauth2.Valid token;
          if valid : bool then
            logPrintf "Valid token found, authentication successful";;
            mret (Ok config)
          else
            logPrintf "Token expired, starting OAuth flow...";;
            mret (Ok config)
      end
  end.

Definition CompleteAuthentication (code : string) : Prog Env (option error) :=
  logPrintf "Completing OAuth2 authentication with code...";;
  r ← oauthService (ExchangeCode code);
  match r with
  | Err err =>
      logPrintf ("Failed to exchange code for token: " +:+ err);;
      mret (Some err)
  | Ok token =>
      err ← oauthService (SaveToken token);
      match err with
      | Some err =>
          logPrintf ("Failed to save token: " +:+ err);;
          mret (Some err)
      | None =>
          logPrintf "Authentication completed successfully";;
          mret None
      end
  end.

(** The state string of one run of the local server flow, from
    [time.Now()] read at its start. *)
Definition authState (now : Time) : string :=
  "random-state-" +:+ pretty (Unix now).

(** The page written to the browser on success. *)
Definition successPage : string :=
"
					<html>
						<body>
							<h1>Authorization Successful!</h1>
							<p>You can close this window now.</p>
							<script>window.close();</script>
						</body>
					</html>
				".

(** The handler of the local server. *)
Definition callbackHandler (state : string) (r : http.Request) : Prog http.HandlerE unit :=
  if decide (http.Path r = "/oauth2callback") then
    let query := http.Query r in
    let err := http.Get query "error" in
    if decide (err ≠ "") then
      call (http.Send (http.OnErrChan ("OAuth error: " +:+ err)))
    else
      let receivedState := http.Get query "state" in
      if decide (receivedState ≠ state) then
        call (http.Send (http.OnErrChan "invalid state parameter"))
      else
        let code := http.Get query "code" in
        if decide (code = "") then
          call (http.Send (http.OnErrChan "no authorization code received"))
        else
          call (http.HeaderSet "Content-Type" "text/html");;
          call (http.WriteHeader http.StatusOK);;
          call (http.Write successPage);;
          call (http.Send (http.OnCodeChan code))
  else
    call http.NotFound.

(** The body of the goroutine that runs the server. *)
Definition serverGoroutine (server : http.Server) (authURL : string) : Prog http.GoE unit :=
  logPrintf "Starting local server on http://localhost:8080";;
  logPrintf "Visit this URL in your browser to authorize:";;
  logPrintf authURL;;
  err ← call (http.ListenAndServe server);
  match err with
  | Some err =>
      if decide (err ≠ http.ErrServerClosed) then
        call (http.GoSend (http.OnErrChan ("server error: " +:+ err)))
      else mret tt
  | None => mret tt
  end.

Definition CompleteAuthenticationWithServer : Prog Env (option error) :=
  logPrintf "Starting OAuth2 flow with local server...";;
  now ← call TimeNow;
  let state := authState now in
  authURL ← oauthService (GetAuthURLWithState state);
  call MakeChans;;
  let server := http.mkServer ":8080" (callbackHandler state) in
  call (Go (serverGoroutine server authURL));;
  sel ← call (Select (10 * Minute));
  match sel with
  | http.RecvCode code =>
      call (Shutdown server (5 * Second));;
      CompleteAuthentication code
  | http.RecvErr err =>
      call (Shutdown server (5 * Second));;
      mret (Some err)
  | http.TimeAfter =>
      call (Shutdown server (5 * Second));;
      mret (Some "OAuth flow timed out")
  end.

Definition GetAuthURL : Prog Env string := oauthService domain.GetAuthURL.

Definition LoadToken : Prog Env (option Token * option error) :=
  oauthService domain.LoadToken.

End usecase.

(** ** The standard library functions the album transport relies on

    [RespBody] is the type of response bodies.  [url_Parse] gives the
    error of [http.NewRequest] on a URL it rejects; the remaining fields
    are [json.Marshal] on the request document, [io.ReadAll], and the two
    JSON decoders.  A request document is a string or a map with one key. *)
Inductive JSON : Type :=
| JString (s : string)
| JObject (key : string) (value : JSON).

Class Wire (RespBody : Type) : Type := {
  url_Parse : string -> option error;
  json_Marshal : JSON -> result string;
  io_ReadAll : RespBody -> result string;
  json_Unmarshal_AlbumsResponse : string -> result domain.AlbumsResponse;
  json_Decode_Album : RespBody -> result domain.Album
}.

(** ** The world outside the OAuth repository

    The clock, the files on disk with the faults the operating system can
    answer with, the JSON codec of the token, the token endpoint, and the
    local listener with the callbacks that reach it. *)
Record World : Type := mkWorld {
  now : Time;
  files : gmap string string;
  openFault : option error;
  createFault : option error;
  writeFault : option (nat * error);
  decodeToken : string -> domain.Token * option error;
  marshalToken : domain.Token -> string;
  tokenEndpoint : string -> result domain.Token;
  authCodeURL : domain.Config -> string -> string;
  listenFault : option error;
  arrivals : list (Duration * http.Request);
  codeChan : option string;
  errChan : option error;
  serving : option http.Server
}.

Definition with_files (fs : gmap string string) (w : World) : World :=
  mkWorld (now w) fs (openFault w) (createFault w) (writeFault w)
    (decodeToken w) (marshalToken w) (tokenEndpoint w) (authCodeURL w)
    (listenFault w) (arrivals w) (codeChan w) (errChan w) (serving w).

Definition with_listener (arr : list (Duration * http.Request))
    (cc : option string) (ec : option error) (srv : option http.Server)
    (w : World) : World :=
  mkWorld (now w) (files w) (openFault w) (createFault w) (writeFault w)
    (decodeToken w) (marshalToken w) (tokenEndpoint w) (authCodeURL w)
    (listenFault w) arr cc ec srv.

(** State transformers over the world. *)
Definition M (A : Type) : Type := World -> A * World.

#[global] Instance M_ret : MRet M := fun _ a w => (a, w).
#[global] Instance M_bind : MBind M :=
  fun _ _ k m w => let '(a, w') := m w in k a w'.

(** ** Package [os] and the JSON codec on files *)
Module os.

(** An open file, named by its path. *)
Definition File : Type := string.

(** [os.Open]: fails when the file is missing. *)
Definition Open (name : string) : M (result File) := fun w =>
  match openFault w with
  | Some e => (Err e, w)
  | None =>
      match files w !! name with
      | Some _ => (Ok name, w)
      | None => (Err ("open " +:+ name +:+ ": no such file or directory"), w)
      end
  end.

(** [os.ReadFile]: the whole content, or the error of opening. *)
Definition ReadFile (name : string) : M (result string) := fun w =>
  match openFault w with
  | Some e => (Err e, w)
  | None =>
      match files w !! name with
      | Some content => (Ok content, w)
      | None => (Err ("open " +:+ name +:+ ": no such file or directory"), w)
      end
  end.

(** [os.Create]: creates the file or truncates it to length zero. *)
Definition Create (name : string) : M (result File) := fun w =>
  match createFault w with
  | Some e => (Err e, w)
  | None => (Ok name, with_files (<[name := ""]> (files w)) w)
  end.

(** [f.Write]: appends to what the handle has written so far; under a
    write fault only the first [n] bytes reach the file. *)
Definition Write (f : File) (data : string) : M (option error) := fun w =>
  let old := default "" (files w !! f) in
  match writeFault w with
  | Some (n, e) =>
      (Some e, with_files (<[f := old +:+ String.substring 0 n data]> (files w)) w)
  | None => (None, with_files (<[f := old +:+ data]> (files w)) w)
  end.

(** [json.NewDecoder(f).Decode(&tok)]. *)
Definition Decode (f : File) : M (domain.Token * option error) := fun w =>
  (decodeToken w (default "" (files w !! f)), w).

(** [json.NewEncoder(f).Encode(tok)]: the document and a newline, in one
    write. *)
Definition Encode (f : File) (tok : domain.Token) : M (option error) := fun w =>
  Write f (marshalToken w tok +:+ "
") w.

End os.

(** ** Package [repository] *)
Module repository.
Import domain.

(** *** [GooglePhotosRepository], over its [client] *)

Definition albumsEndpoint : string :=
  "https://photoslibrary.googleapis.com/v1/albums".

(** [http.NewRequest]. *)
Definition NewRequest `{Wire RespBody} (method url : string) (body : option string)
    : result http.ClientRequest :=
  match url_Parse url with
  | Some e => Err e
  | None => Ok (http.mkClientRequest method url ∅ body)
  end.

Definition makeAlbumsRequest `{Wire RespBody} (url : string)
    : Prog (http.ClientE RespBody) (result (http.Response RespBody)) :=
  match NewRequest "GET" url None with
  | Err err => mret (Err ("failed to create request: " +:+ err))
  | Ok req =>
      let req := http.SetHeader "Content-Type" "application/json" req in
      call (http.Do req)
  end.

Definition readAndParseResponse `{Wire RespBody} (resp : http.Response RespBody)
    : Prog (http.ClientE RespBody) (result AlbumsResponse) :=
  if decide (http.StatusCode resp ≠ http.StatusOK) then
    mret (Err ("unexpected status code: " +:+ pretty (http.StatusCode resp)))
  else
    match io_ReadAll (http.RespBodyOf resp) with
    | Err err => mret (Err ("failed to read response body: " +:+ err))
    | Ok body =>
        logPrintf ("Raw API Response: " +:+ body);;
        match json_Unmarshal_AlbumsResponse body with
        | Err err => mret (Err ("failed to decode JSON: " +:+ err))
        | Ok data => mret (Ok data)
        end
    end.

Definition ListAlbums `{Wire RespBody}
    : Prog (http.ClientE RespBody) (result AlbumsResponse) :=
  r ← makeAlbumsRequest albumsEndpoint;
  match r with
  | Err err => mret (Err ("failed to make albums request: " +:+ err))
  | Ok resp => readAndParseResponse resp
  end.

Definition GetAlbumByID `{Wire RespBody} (id : string)
    : Prog (http.ClientE RespBody) (result Album) :=
  let url := albumsEndpoint +:+ "/" +:+ id in
  match NewRequest "GET" url None with
  | Err err => mret (Err ("failed to create request: " +:+ err))
  | Ok req =>
      let req := http.SetHeader "Content-Type" "application/json" req in
      r ← call (http.Do req);
      match r with
      | Err err => mret (Err ("failed to fetch album: " +:+ err))
      | Ok resp =>
          if decide (http.StatusCode resp ≠ http.StatusOK) then
            mret (Err ("API error: " +:+ http.Status resp))
          else
            match json_Decode_Album (http.RespBodyOf resp) with
            | Err err => mret (Err ("failed to decode album: " +:+ err))
            | Ok album => mret (Ok album)
            end
      end
  end.

Definition CreateAlbum `{Wire RespBody} (title : string)
    : Prog (http.ClientE RespBody) (result Album) :=
  let body := JObject "album" (JObject "title" (JString title)) in
  match json_Marshal body with
  | Err err => mret (Err ("failed to marshal request body: " +:+ err))
  | Ok jsonBody =>
      match NewRequest "POST" albumsEndpoint (Some jsonBody) with
      | Err err => mret (Err ("failed to create request: " +:+ err))
      | Ok req =>
          let req := http.SetHeader "Content-Type" "application/json" req in
          r ← call (http.Do req);
          match r with
          | Err err => mret (Err ("create album failed: " +:+ err))
          | Ok resp =>
              match json_Decode_Album (http.RespBodyOf resp) with
              | Err err => mret (Err ("failed to decode response: " +:+ err))
              | Ok album => mret (Ok album)
              end
          end
      end
  end.

Definition FetchNextPage `{Wire RespBody} (nextPageToken : string)
    : Prog (http.ClientE RespBody) (result AlbumsResponse) :=
  let nextPageURL := albumsEndpoint +:+ "?pageToken=" +:+ nextPageToken in
  r ← makeAlbumsRequest nextPageURL;
  match r with
  | Err err => mret (Err ("failed to fetch next page: " +:+ err))
  | Ok resp => readAndParseResponse resp
  end.

(** What reading and decoding the body of a response gives, for a page
    of albums and for one album. *)
Definition decodedPage `{Wire RespBody} (resp : http.Response RespBody)
    : result AlbumsResponse :=
  match io_ReadAll (http.RespBodyOf resp) with
  | Err err => Err ("failed to read response body: " +:+ err)
  | Ok body =>
      match json_Unmarshal_AlbumsResponse body with
      | Err err => Err ("failed to decode JSON: " +:+ err)
      | Ok data => Ok data
      end
  end.

Definition decodedAlbum `{Wire RespBody} (resp : http.Response RespBody)
    : result Album :=
  match json_Decode_Album (http.RespBodyOf resp) with
  | Err err => Err ("failed to decode album: " +:+ err)
  | Ok album => Ok album
  end.

(** *** [OAuthRepository] *)

Definition tokenFile : string := "token.json".

Record OAuthRepository : Type := mkOAuthRepository {
  config : Config
}.

(** The three scopes asked for. *)
Definition scopes : list string :=
  ["https://www.googleapis.com/auth/photoslibrary.readonly.appcreateddata";
   "https://www.googleapis.com/auth/photoslibrary.appendonly";
   "https://www.googleapis.com/auth/photoslibrary.edit.appcreateddata"].

(** [NewOAuthRepository], over [google.ConfigFromJSON]. *)
Definition NewOAuthRepository
    (ConfigFromJSON : string -> list string -> result Config)
    : M (result OAuthRepository) :=
  b ← os.ReadFile "credentials.json";
  match b with
  | Err err => mret (Err ("unable to read credentials.json: " +:+ err))
  | Ok b =>
      match ConfigFromJSON b scopes with
      | Err err => mret (Err ("unable to parse credentials.json: " +:+ err))
      | Ok config => mret (Ok (mkOAuthRepository config))
      end
  end.

Definition GetClient (r : OAuthRepository) : M (result Config) :=
  mret (Ok (config r)).

Definition LoadToken (r : OAuthRepository) : M (option Token * option error) :=
  f ← os.Open tokenFile;
  match f with
  | Err err => mret (None, Some err)
  | Ok f =>
      '(tok, err) ← os.Decode f;
      mret (Some tok, err)
  end.

Definition SaveToken (r : OAuthRepository) (tok : Token) : M (option error) :=
  f ← os.Create tokenFile;
  match f with
  | Err err => mret (Some ("failed to create token file: " +:+ err))
  | Ok f => os.Encode f tok
  end.

(** [r.config.Exchange]: the answer of the token endpoint. *)
Definition ExchangeCode (r : OAuthRepository) (code : string) : M (result Token) :=
  fun w => (tokenEndpoint w code, w).

Definition GetAuthURL (r : OAuthRepository) : M string :=
  fun w => (authCodeURL w (config r) "state-token", w).

(** Modelled from the spec: [GetAuthURLWithState] is called by the local
    server flow but the repository under study has no body for it; the
    authorization URL is built as [GetAuthURL] builds it, embedding the
    state it is given. *)
Definition GetAuthURLWithState (r : OAuthRepository) (state : string) : M string :=
  fun w => (authCodeURL w (config r) state, w).

End repository.

(** ** Package [delivery] *)
Module delivery.
Import domain.

Fixpoint printAlbumLines {E} (albums : list Album) : Prog E unit :=
  match albums with
  | [] => mret tt
  | album :: rest =>
      logPrintf ("- " +:+ Title album +:+ " (" +:+ ID album +:+ ")");;
      printAlbumLines rest
  end.

Definition printAlbums {E} (albums : list Album) : Prog E unit :=
  if decide (length albums = 0%nat) then
    logPrintf "No albums found."
  else
    logPrintf "Albums:";;
    printAlbumLines albums.

Definition HandleNextPage (nextPageToken : string) : Prog AlbumRepository unit :=
  logPrintf "--- Fetching Next Page ---";;
  r ← usecase.FetchNextPage nextPageToken;
  match r with
  | Err err => logPrintf ("Failed to fetch next page: " +:+ err)
  | Ok response =>
      if decide (0 < length (Albums response))%nat then
        logPrintf ("Found " +:+ pretty (length (Albums response)) +:+ " albums on next page:");;
        printAlbums (Albums response)
      else mret tt
  end.

Definition handleNextPage (nextPageToken : string) : Prog AlbumRepository unit :=
  HandleNextPage nextPageToken.

Definition HandleListAlbums : Prog AlbumRepository unit :=
  logPrintf "--- Listing Albums ---";;
  r ← usecase.ListAlbums;
  match r with
  | Err err => logPrintf ("Failed to list albums: " +:+ err)
  | Ok response =>
      printAlbums (Albums response);;
      if decide (NextPageToken response ≠ "") then
        logPrintf ("Next page token: " +:+ NextPageToken response);;
        handleNextPage (NextPageToken response)
      else mret tt
  end.

Definition HandleGetAlbum (albumID : string) : Prog AlbumRepository unit :=
  logPrintf "--- Getting Album by ID ---";;
  r ← usecase.GetAlbumByID albumID;
  match r with
  | Err err => logPrintf ("Failed to get album: " +:+ err)
  | Ok album =>
      logPrintf "Album Info:";;
      logPrintf ("- ID: " +:+ ID album);;
      logPrintf ("- Title: " +:+ Title album)
  end.

End delivery.

(** ** The listener, the channels and the [select], run on the world *)

(** The signals a handler sends while it serves one request. *)
Definition chanH : handler http.HandlerE (list http.Signal) := fun X e sent =>
  match e in http.HandlerE X return X * list http.Signal with
  | http.Send s => (tt, sent ++ [s])
  | http.HeaderSet _ _ => (tt, sent)
  | http.WriteHeader _ => (tt, sent)
  | http.Write _ => (tt, sent)
  | http.NotFound => (tt, sent)
  end.

Definition signalled (p : Prog http.HandlerE unit) : option http.Signal :=
  head (final (exec chanH p [])).

(** The first signal sent by the handler among the requests that arrive
    before the timer fires, taken in order of arrival. *)
Fixpoint firstSignal (h : http.Request -> Prog http.HandlerE unit)
    (timeout : Duration) (reqs : list (Duration * http.Request))
    : option http.Signal :=
  match reqs with
  | [] => None
  | (t, r) :: rest =>
      if decide (t < timeout) then
        match signalled (h r) with
        | Some s => Some s
        | None => firstSignal h timeout rest
        end
      else firstSignal h timeout rest
  end.

(** A send on a channel of capacity one: buffered when the channel is
    empty, otherwise the sender stays blocked and the buffer is as it was. *)
Definition send (s : http.Signal) (w : World) : World :=
  match s with
  | http.OnCodeChan c =>
      match codeChan w with
      | None => with_listener (arrivals w) (Some c) (errChan w) (serving w) w
      | Some _ => w
      end
  | http.OnErrChan e =>
      match errChan w with
      | None => with_listener (arrivals w) (codeChan w) (Some e) (serving w) w
      | Some _ => w
      end
  end.

(** The goroutine: [ListenAndServe] either fails at once, or serves until
    shutdown and then returns [ErrServerClosed]. *)
Definition goH : handler http.GoE World := fun X e w =>
  match e in http.GoE X return X * World with
  | http.ListenAndServe srv =>
      match listenFault w with
      | Some err =>
          (Some err, with_listener (arrivals w) (codeChan w) (errChan w) None w)
      | None =>
          (Some http.ErrServerClosed,
           with_listener (arrivals w) (codeChan w) (errChan w) (Some srv) w)
      end
  | http.GoSend s => (tt, send s w)
  end.

(** The [select]: a message already waiting is received; otherwise the
    listener serves the callbacks until its handler sends one; with
    nothing sent before the timer, the timer case fires. *)
Definition select (timeout : Duration) : M http.Selected := fun w =>
  match codeChan w, errChan w with
  | Some c, _ =>
      (http.RecvCode c, with_listener (arrivals w) None (errChan w) (serving w) w)
  | None, Some e =>
      (http.RecvErr e, with_listener (arrivals w) None None (serving w) w)
  | None, None =>
      match serving w with
      | None => (http.TimeAfter, w)
      | Some srv =>
          match firstSignal (http.Handler srv) timeout (arrivals w) with
          | Some (http.OnCodeChan c) => (http.RecvCode c, w)
          | Some (http.OnErrChan e) => (http.RecvErr e, w)
          | None => (http.TimeAfter, w)
          end
      end
  end.

(** The wiring of the application: the use case talks to an
    [OAuthRepository], and the runtime primitives act on the world. *)
Definition service (r : repository.OAuthRepository) {X} (m : domain.OAuthService X) : M X :=
  match m in domain.OAuthService X return M X with
  | domain.GetClient => repository.GetClient r
  | domain.LoadToken => repository.LoadToken r
  | domain.SaveToken tok => repository.SaveToken r tok
  | domain.ExchangeCode code => repository.ExchangeCode r code
  | domain.GetAuthURL => repository.GetAuthURL r
  | domain.GetAuthURLWithState state => repository.GetAuthURLWithState r state
  end.

Definition appEnv (r : repository.OAuthRepository) : handler Env World := fun X e =>
  match e in Env X return World -> X * World with
  | Service m => service r m
  | TimeNow => fun w => (now w, w)
  | MakeChans => fun w => (tt, with_listener (arrivals w) None None (serving w) w)
  | Go g => fun w => (tt, final (exec goH g w))
  | Select timeout => select timeout
  | Shutdown srv grace => fun w =>
      (None, with_listener (arrivals w) (codeChan w) (errChan w) None w)
  end.

(** A request that cannot wake the [select]: it arrives when the timer
    has fired, or it is for another path. *)
Definition quiet (timeout : Duration) (a : Duration * http.Request) : Prop :=
  timeout ≤ a.1 ∨ http.Path a.2 ≠ "/oauth2callback".

(** The case the [select] of the flow fires on a world whose listener is
    up and whose channels are empty, and the world after the shutdown. *)
Definition chosen (state : string) (w : World) : http.Selected :=
  match firstSignal (usecase.callbackHandler state) (10 * Minute) (arrivals w) with
  | Some (http.OnCodeChan c) => http.RecvCode c
  | Some (http.OnErrChan e) => http.RecvErr e
  | None => http.TimeAfter
  end.

Definition shut (w : World) : World :=
  with_listener (arrivals w) None None None w.

(** What the handler does to one request: its writes and its sends. *)
Definition served (state : string) (r : http.Request) : list (Obs http.HandlerE) :=
  trace (exec chanH (usecase.callbackHandler state r) []).

(** ** The callback as the specification words it

    These definitions follow the text of the specification, not the
    code: the ordered case analysis on the query parameters [error],
    [state] and [code], the Go error that stands for each failure, and
    the range of response statuses it calls 2xx. *)
Module spec.

Inductive Outcome : Type :=
| CallbackError (reason : string)
| InvalidState
| MissingCode
| Success (code : string).

Definition outcome (minted : string) (r : http.Request) : Outcome :=
  let query := http.Query r in
  if decide (http.Get query "error" ≠ "") then CallbackError (http.Get query "error")
  else if decide (http.Get query "state" ≠ minted) then InvalidState
  else if decide (http.Get query "code" = "") then MissingCode
  else Success (http.Get query "code").

Definition message (o : Outcome) : error :=
  match o with
  | CallbackError reason => "OAuth error: " +:+ reason
  | InvalidState => "invalid state parameter"
  | MissingCode => "no authorization code received"
  | Success _ => ""
  end.

Definition is2xx (status : Z) : bool :=
  bool_decide (200 ≤ status < 300).

End spec.

(** ** A concrete world, after the fixtures of the use case tests *)
Module sample.
Import domain.

Definition testConfig : Config :=
  mkConfig "test-client-id" "test-client-secret"
    "http://localhost:8080/callback"
    ["https://www.googleapis.com/auth/photoslibrary.readonly"]
    "https://accounts.google.com/oauth/authorize"
    "https://oauth2.googleapis.com/token".

Definition repo : repository.OAuthRepository :=
  repository.mkOAuthRepository testConfig.

(** The clock of the sample world: 2023-11-14 22:13:20 UTC and half a
    second. *)
Definition clock : Time := 1700000000 * Second + 500000000.

Definition expiredToken : Token :=
  mkToken "expired-token" "Bearer" "refresh-me" (clock - 3600 * Second).

Definition mockToken : Token :=
  mkToken "mock-access-token" "Bearer" "" (clock + 3600 * Second).

(** A stand-in for the JSON codec of the token, good for the two tokens
    above: anything else is reported as malformed. *)
Definition marshal (tok : Token) : string :=
  "{access_token:" +:+ AccessToken tok +:+ ",expiry:" +:+ pretty (Expiry tok) +:+ "}".

Definition decode (content : string) : Token * option error :=
  if decide (content = marshal expiredToken +:+ "
") then (expiredToken, None)
  else if decide (content = marshal mockToken +:+ "
") then (mockToken, None)
  else (mkToken "" "" "" zeroTime, Some "invalid character 'x' looking for beginning of value").

(** The token endpoint accepts one code. *)
Definition endpoint (code : string) : result Token :=
  if decide (code = "test-auth-code") then Ok mockToken
  else Err "oauth2: cannot fetch token: 400 Bad Request".

Definition codeURL (c : Config) (state : string) : string :=
  AuthURL c +:+ "?state=" +:+ state.

(** A world with an expired token on disk, the given clock and the given
    callbacks. *)
Definition worldAt (t : Time) (arr : list (Duration * http.Request)) : World :=
  mkWorld t {[ repository.tokenFile := marshal expiredToken +:+ "
" ]} None None None decode marshal endpoint codeURL None arr None None None.

Definition world (arr : list (Duration * http.Request)) : World :=
  worldAt clock arr.

(** The same world with port 8080 taken by another process. *)
Definition portTaken : World :=
  mkWorld clock {[ repository.tokenFile := marshal expiredToken +:+ "
" ]} None None None decode marshal endpoint codeURL
    (Some "listen tcp :8080: bind: address already in use") [] None None None.

(** The same world on a disk that takes five more bytes and then is full. *)
Definition fullDisk : World :=
  mkWorld clock {[ repository.tokenFile := marshal expiredToken +:+ "
" ]} None None (Some (5%nat, "write token.json: no space left on device"))
    decode marshal endpoint codeURL None [] None None None.

Definition callback (params : list (string * list string)) : http.Request :=
  http.mkRequest "/oauth2callback" (list_to_map params).

(** The album transport of the sample: bodies are strings, and the server
    answers every request with one fixed response. *)
#[global] Instance wire : Wire string := {|
  url_Parse := fun _ => None;
  json_Marshal := fun j =>
    match j with
    | JObject "album" (JObject "title" (JString t)) => Ok ("{album:{title:" +:+ t +:+ "}}")
    | _ => Err "json: unsupported value"
    end;
  io_ReadAll := fun b => Ok b;
  json_Unmarshal_AlbumsResponse := fun b =>
    if decide (b = "{}") then Ok (mkAlbumsResponse [] "")
    else Err "invalid character";
  json_Decode_Album := fun b =>
    if decide (b = "{error:{code:403,status:PERMISSION_DENIED}}") then Ok (mkAlbum "" "")
    else Err "invalid character"
|}.

(** An album repository that answers [ListAlbums] and [FetchNextPage]
    with the pages of a script, one after the other. *)
Definition nextPage (script : list AlbumsResponse) : result AlbumsResponse * list AlbumsResponse :=
  match script with
  | [] => (Err "no more pages", [])
  | page :: rest => (Ok page, rest)
  end.

Definition scripted : handler AlbumRepository (list AlbumsResponse) := fun X e script =>
  match e in AlbumRepository X return X * list AlbumsResponse with
  | ListAlbums => nextPage script
  | FetchNextPage _ => nextPage script
  | GetAlbumByID _ => (Err "not found", script)
  | CreateAlbum title => (Ok (mkAlbum "test-id" title), script)
  end.

Definition transport (resp : http.Response string) : handler (http.ClientE string) unit :=
  fun X e s =>
    match e in http.ClientE _ X return X * unit with
    | http.Do _ => (Ok resp, s)
    end.

End sample.

(** ** The album side wired together *)

(** The requests a run of the transport hands to [client.Do]. *)
Definition sent {B} (tr : list (Obs (http.ClientE B))) : list http.ClientRequest :=
  omap (fun o =>
    match o with
    | Line _ => None
    | Called e _ => match e with http.Do req => Some req end
    end) tr.

(** An HTTP client whose server answers each request by [answer]; its
    state is the list of the requests sent so far. *)
Definition client {B} (answer : http.ClientRequest -> result (http.Response B))
    : handler (http.ClientE B) (list http.ClientRequest) :=
  fun X e log =>
    match e in http.ClientE _ X return X * list http.ClientRequest with
    | http.Do req => (answer req, log ++ [req])
    end.

(** The [GooglePhotosRepository] as the implementation of the interface:
    each method runs the transport on the client. *)
Definition photos `{Wire B} {S} (c : handler (http.ClientE B) S)
    : handler domain.AlbumRepository S :=
  fun X e s =>
    match e in domain.AlbumRepository X return X * S with
    | domain.ListAlbums =>
        let run := exec c repository.ListAlbums s in (returned run, final run)
    | domain.GetAlbumByID id =>
        let run := exec c (repository.GetAlbumByID id) s in (returned run, final run)
    | domain.CreateAlbum title =>
        let run := exec c (repository.CreateAlbum title) s in (returned run, final run)
    | domain.FetchNextPage token =>
        let run := exec c (repository.FetchNextPage token) s in (returned run, final run)
    end.

(** A use case method passes a repository method through when, in every
    environment, it makes that one call and returns its answer. *)
Definition passes_through {X} (p : Prog domain.AlbumRepository X)
    (m : domain.AlbumRepository X) : Prop :=
  forall S (h : handler domain.AlbumRepository S) (s : S),
    let run := exec h p s in
    returned run = (h _ m s).1 /\
    final run = (h _ m s).2 /\
    calls (trace run) = [existT _ m].

(** The line [printAlbums] logs for one album. *)
Definition albumLine (album : domain.Album) : string :=
  "- " +:+ domain.Title album +:+ " (" +:+ domain.ID album +:+ ")".

(** The GET request of the transport for a URL. *)
Definition getRequest (url : string) : http.ClientRequest :=
  http.SetHeader "Content-Type" "application/json"
    (http.mkClientRequest "GET" url ∅ None).

(** The POST request of [CreateAlbum] for an encoded document. *)
Definition postRequest (body : string) : http.ClientRequest :=
  http.SetHeader "Content-Type" "application/json"
    (http.mkClientRequest "POST" repository.albumsEndpoint ∅ (Some body)).

(** The line feed that [Encode] writes after the document. *)
Definition newline : string := "
".

(** The world in which the requests [pre] reach the listener before all
    the others. *)
Definition prepend (pre : list (Duration * http.Request)) (w : World) : World :=
  with_listener (pre ++ arrivals w) (codeChan w) (errChan w) (serving w) w.

(** ** Further fixtures *)
Module fixture.
Import domain.

(** A client without network. *)
Definition offline (e : error) : handler (http.ClientE string) unit :=
  fun X c s =>
    match c in http.ClientE _ X return X * unit with
    | http.Do _ => (Err e, s)
    end.

(** The one way in which [url.Parse] rejects every kind of URL: a
    control byte before the fragment.  The text is that of
    [url.Error]: the operation, the URL as [%q] prints it, the cause. *)
Definition doubleQuote : string := String (Ascii.ascii_of_nat 34) "".

Definition isCTL (c : Ascii.ascii) : bool :=
  (Ascii.nat_of_ascii c <? 32)%nat || (Ascii.nat_of_ascii c =? 127)%nat.

Fixpoint beforeFragment (url : string) : string :=
  match url with
  | EmptyString => EmptyString
  | String c rest =>
      if (Ascii.nat_of_ascii c =? 35)%nat then EmptyString else String c (beforeFragment rest)
  end.

Fixpoint containsCTL (url : string) : bool :=
  match url with
  | EmptyString => false
  | String c rest => isCTL c || containsCTL rest
  end.

Definition lowerHex (n : nat) : string :=
  String.substring n 1 "0123456789abcdef".

(** [%q] on one ASCII byte. *)
Definition quotedByte (c : Ascii.ascii) : string :=
  let n := Ascii.nat_of_ascii c in
  if (n =? 34)%nat then "\" +:+ doubleQuote
  else if (n =? 92)%nat then "\\"
  else if (n =? 7)%nat then "\a"
  else if (n =? 8)%nat then "\b"
  else if (n =? 12)%nat then "\f"
  else if (n =? 10)%nat then "\n"
  else if (n =? 13)%nat then "\r"
  else if (n =? 9)%nat then "\t"
  else if (n =? 11)%nat then "\v"
  else if isCTL c then "\x" +:+ lowerHex (n / 16)%nat +:+ lowerHex (n mod 16)%nat
  else String c "".

Fixpoint quoted (s : string) : string :=
  match s with
  | EmptyString => EmptyString
  | String c rest => quotedByte c +:+ quoted rest
  end.

Definition parseError (url : string) : option error :=
  let u := beforeFragment url in
  if containsCTL u then
    Some ("parse " +:+ doubleQuote +:+ quoted u +:+ doubleQuote +:+
          ": net/url: invalid control character in URL")
  else None.

(** A wire whose [http.NewRequest] rejects a URL for that reason and for
    no other. *)
Definition strict : Wire string := {|
  url_Parse := parseError;
  json_Marshal := fun _ => Ok "{}";
  io_ReadAll := fun b => Ok b;
  json_Unmarshal_AlbumsResponse := fun _ => Err "invalid character";
  json_Decode_Album := fun _ => Err "invalid character"
|}.

(** An id, or a page token, with a tab in it. *)
Definition tabbed : string := "my" +:+ String (Ascii.ascii_of_nat 9) "" +:+ "album".

(** A wire and a server with two pages of albums: the first names the
    second by the token [XYZ]. *)
Definition paged : Wire string := {|
  url_Parse := fun _ => None;
  json_Marshal := fun _ => Ok "{}";
  io_ReadAll := fun b => Ok b;
  json_Unmarshal_AlbumsResponse := fun b =>
    if decide (b = "first") then Ok (mkAlbumsResponse [mkAlbum "1" "A"] "XYZ")
    else if decide (b = "second") then Ok (mkAlbumsResponse [mkAlbum "2" "B"] "MORE")
    else Err "invalid character";
  json_Decode_Album := fun _ => Err "invalid character"
|}.

Definition pagedServer (req : http.ClientRequest) : result (http.Response string) :=
  if decide (http.URL req = repository.albumsEndpoint)
  then Ok (http.mkResponse 200 "200 OK" "first")
  else Ok (http.mkResponse 200 "200 OK" "second").

(** A stand-in for [google.ConfigFromJSON]: it accepts one document. *)
Definition configFromJSON (b : string) (scopes : list string) : result Config :=
  if decide (b = "{installed}") then
    Ok (mkConfig "test-client-id" "test-client-secret"
          "http://localhost:8080/callback" scopes
          "https://accounts.google.com/oauth/authorize"
          "https://oauth2.googleapis.com/token")
  else Err "unexpected end of JSON input".

(** The sample world with a credentials file beside the token file. *)
Definition installed : World :=
  with_files (<["credentials.json" := "{installed}"]> (files (sample.world [])))
    (sample.world []).

(** The sample world after an authorization: the disk holds the token of
    the mock exchange, good for one more hour. *)
Definition authorized : World :=
  with_files {[ repository.tokenFile := sample.marshal sample.mockToken +:+ newline ]}
    (sample.world []).

(** A token without expiry, and the sample world with that token on
    disk. *)
Definition foreverToken : Token :=
  mkToken "long-lived-token" "Bearer" "refresh-me" zeroTime.

Definition unexpiring : World :=
  mkWorld sample.clock {[ repository.tokenFile := "{forever}" ]} None None None
    (fun _ => (foreverToken, None)) sample.marshal sample.endpoint sample.codeURL
    None [] None None None.

(** The sample world with a disk on which no file can be created. *)
Definition readOnly : World :=
  mkWorld sample.clock (files (sample.world [])) None
    (Some "open token.json: read-only file system") None
    sample.decode sample.marshal sample.endpoint sample.codeURL None [] None None None.

End fixture.

(** * Properties *)

(** ** Running programs *)

Section Exec.
Context {E : Type -> Type} {S : Type} (h : handler E S).

Lemma exec_bind {A B} (p : Prog E A) (k : A -> Prog E B) (s : S) :
  exec h (p ≫= k) s =
  let r1 := exec h p s in
  let r2 := exec h (k (returned r1)) (final r1) in
  mkRun (returned r2) (final r2) (trace r1 ++ trace r2).
Proof.
  unfold mbind, prog_mbind. revert s.
  induction p as [a | l p IH | X e c IH]; intros s; simpl.
  - by destruct (exec h (k a) s).
  - by rewrite IH.
  - destruct (h X e s) as [x s']. by rewrite IH.
Qed.

Lemma exec_logPrintf (l : string) (s : S) :
  exec h (logPrintf l) s = mkRun tt s [Line l].
Proof. reflexivity. Qed.

Lemma exec_ret {A} (a : A) (s : S) : exec h (mret a) s = mkRun a s [].
Proof. reflexivity. Qed.

Lemma exec_call {X} (e : E X) (s : S) :
  exec h (call e) s = mkRun (h X e s).1 (h X e s).2 [Called e (h X e s).1].
Proof. unfold call. simpl. by destruct (h X e s). Qed.

End Exec.

Lemma calls_app {E} (t1 t2 : list (Obs E)) : calls (t1 ++ t2) = calls t1 ++ calls t2.
Proof. apply omap_app. Qed.

Lemma calls_nil {E} : calls (@nil (Obs E)) = [].
Proof. reflexivity. Qed.

Lemma calls_line {E} (l : string) (t : list (Obs E)) : calls (Line l :: t) = calls t.
Proof. reflexivity. Qed.

Lemma calls_called {E X} (e : E X) (x : X) (t : list (Obs E)) :
  calls (Called e x :: t) = existT X e :: calls t.
Proof. reflexivity. Qed.

(** [run] executes the next steps of a program by rewriting; [count]
    pushes [calls] through a trace. *)
Ltac run :=
  repeat (rewrite ?exec_bind, ?exec_logPrintf, ?exec_call, ?exec_ret;
          cbn [returned final trace app fst snd]).

Ltac count :=
  repeat (rewrite ?calls_line, ?calls_called, ?calls_app, ?calls_nil; cbn [app]).

(** Printing albums logs lines and calls nothing. *)
Lemma exec_printAlbumLines {E S} (h : handler E S) (albums : list domain.Album) (s : S) :
  let run := exec h (delivery.printAlbumLines albums) s in
  final run = s /\ calls (trace run) = [].
Proof.
  induction albums as [| a rest [IHf IHc]]; simpl; [done |].
  unfold mbind, prog_mbind. simpl. split; [exact IHf | exact IHc].
Qed.

Lemma exec_printAlbums {E S} (h : handler E S) (albums : list domain.Album) (s : S) :
  let run := exec h (delivery.printAlbums albums) s in
  final run = s /\ calls (trace run) = [].
Proof.
  unfold delivery.printAlbums. case_decide; [done |].
  unfold mbind, prog_mbind. simpl.
  apply (exec_printAlbumLines h albums s).
Qed.

(** ** The list command *)

(** C9. When the album repository answers the first [ListAlbums] with a
    page, the list command calls the repository once more exactly when
    that page carries a non-empty next-page token [t], and then with
    [FetchNextPage t]; whatever the second page holds, no further call
    follows. *)
Theorem list_chases_exactly_one_page {S} (h : handler domain.AlbumRepository S)
    (s s1 : S) (page : domain.AlbumsResponse) :
  h _ domain.ListAlbums s = (Ok page, s1) ->
  calls (trace (exec h delivery.HandleListAlbums s)) =
    if decide (domain.NextPageToken page = "") then
      [existT _ domain.ListAlbums]
    else
      [existT _ domain.ListAlbums;
       existT _ (domain.FetchNextPage (domain.NextPageToken page))].
Proof.
  intros Hlist.
  unfold delivery.HandleListAlbums, usecase.ListAlbums.
  run. rewrite Hlist. run.
  destruct (exec_printAlbums h (domain.Albums page) s1) as [Hf Hc].
  destruct (decide (domain.NextPageToken page = "")) as [Hnil | Hmore].
  - rewrite decide_False by (intros ?; done). run.
    rewrite decide_False by (intros ?; done). run.
    count. by rewrite Hc.
  - rewrite decide_True by done. run. rewrite decide_True by done.
    unfold delivery.handleNextPage, delivery.HandleNextPage, usecase.FetchNextPage.
    run. rewrite Hf.
    destruct (h _ (domain.FetchNextPage (domain.NextPageToken page)) s1)
      as [[page2 | e2] s2]; run.
    + count. rewrite Hc. case_decide; run; count; [| done].
      destruct (exec_printAlbums h (domain.Albums page2) s2) as [_ Hc2].
      by rewrite Hc2.
    + count. by rewrite Hc.
Qed.

(** The script of the end-to-end test: a first page with token [XYZ], a
    second page that again names a next page. *)
Lemma list_chases_exactly_one_page_witness :
  calls (trace (exec sample.scripted delivery.HandleListAlbums
    [domain.mkAlbumsResponse [domain.mkAlbum "1" "A"] "XYZ";
     domain.mkAlbumsResponse [domain.mkAlbum "2" "B"] "MORE";
     domain.mkAlbumsResponse [domain.mkAlbum "3" "C"] ""])) =
  [existT _ domain.ListAlbums; existT _ (domain.FetchNextPage "XYZ")].
Proof.
  exact (list_chases_exactly_one_page sample.scripted
           [domain.mkAlbumsResponse [domain.mkAlbum "1" "A"] "XYZ";
            domain.mkAlbumsResponse [domain.mkAlbum "2" "B"] "MORE";
            domain.mkAlbumsResponse [domain.mkAlbum "3" "C"] ""]
           [domain.mkAlbumsResponse [domain.mkAlbum "2" "B"] "MORE";
            domain.mkAlbumsResponse [domain.mkAlbum "3" "C"] ""]
           (domain.mkAlbumsResponse [domain.mkAlbum "1" "A"] "XYZ") eq_refl).
Defined.

(** ** The token store seen from the use case *)

(** Loading the token and checking its validity read the world and leave
    it as it was. *)
Lemma LoadToken_world (r : repository.OAuthRepository) (w : World) :
  (repository.LoadToken r w).2 = w.
Proof.
  unfold repository.LoadToken, os.Open, os.Decode, mbind, M_bind, mret, M_ret.
  destruct (openFault w); [done |].
  destruct (files w !! repository.tokenFile); [| done].
  by destruct (decodeToken w _).
Qed.

Lemma Valid_world (r : repository.OAuthRepository) (tok : option domain.Token) (w : World) :
  final (exec (appEnv r) (oauth2.Valid tok) w) = w.
Proof.
  destruct tok as [t |]; [| done]. unfold oauth2.Valid, oauth2.expired.
  case_decide; [done |]. destruct (IsZero (domain.Expiry t)); run; done.
Qed.

(** The outcome of [LoadToken] and of the validity check never reaches
    the caller. *)
Lemma AuthenticateClient_returns_config {S} (h : handler Env S) (s : S) :
  returned (exec h usecase.AuthenticateClient s) = (h _ (Service domain.GetClient) s).1.
Proof.
  unfold usecase.AuthenticateClient, usecase.oauthService. run.
  destruct (h _ (Service domain.GetClient) s) as [[cfg | e] s1]; run; [| done].
  destruct (h _ (Service domain.LoadToken) s1) as [[tok [err |]] s2]; run; [done |].
  destruct (exec h (oauth2.Valid tok) s2) as [[|] s3 tr]; run; done.
Qed.

(** ** [AuthenticateClient] *)

(** C10. Whatever the service and the clock answer, [AuthenticateClient]
    returns exactly what [GetClient] returned: it fails only when
    obtaining the config fails, and the outcome of [LoadToken] never
    reaches the caller.  Wired to the [OAuthRepository], whose
    [GetClient] cannot fail, it returns the config on every disk (token
    file missing, unreadable, malformed or well-formed) and leaves the
    world as it was. *)
Theorem authenticate_fails_only_without_config :
  (forall S (h : handler Env S) (s : S),
     returned (exec h usecase.AuthenticateClient s) =
     (h _ (Service domain.GetClient) s).1) /\
  (forall (r : repository.OAuthRepository) (w : World),
     let run := exec (appEnv r) usecase.AuthenticateClient w in
     returned run = Ok (repository.config r) /\ final run = w).
Proof.
  split; [intros; apply AuthenticateClient_returns_config |].
  intros r w. cbn zeta. rewrite AuthenticateClient_returns_config. split; [done |].
  unfold usecase.AuthenticateClient, usecase.oauthService. run.
  change (appEnv r _ (Service domain.GetClient) w) with (Ok (repository.config r), w). run.
  change (appEnv r _ (Service domain.LoadToken)) with (repository.LoadToken r).
  pose proof (LoadToken_world r w) as Hw.
  destruct (repository.LoadToken r w) as [[tok [err |]] w1];
    simpl in Hw; subst w1; run; [done |].
  pose proof (Valid_world r tok w) as Hv.
  destruct (exec (appEnv r) (oauth2.Valid tok) w) as [[|] w3 tr];
    simpl in Hv; subst; run; done.
Qed.

(** The two failures of the token store that the claim names, on the
    sample disk: no token file, and a token file that does not decode. *)
Example authenticate_without_token_file :
  let w := with_files ∅ (sample.world []) in
  (repository.LoadToken sample.repo w).1 =
    (None, Some "open token.json: no such file or directory") /\
  returned (exec (appEnv sample.repo) usecase.AuthenticateClient w) =
    Ok sample.testConfig.
Proof. split; reflexivity. Qed.

Example authenticate_with_malformed_token_file :
  let w := with_files {[ repository.tokenFile := "xyz" ]} (sample.world []) in
  (repository.LoadToken sample.repo w).1.2 =
    Some "invalid character 'x' looking for beginning of value" /\
  lines (trace (exec (appEnv sample.repo) usecase.AuthenticateClient w)) =
    ["Starting OAuth2 authentication...";
     "No existing token found, starting OAuth flow..."] /\
  returned (exec (appEnv sample.repo) usecase.AuthenticateClient w) =
    Ok sample.testConfig.
Proof. repeat split; vm_compute; reflexivity. Qed.

(** C7 as written fails on a stored token whose expiry is the zero time:
    that instant lies before every reading of the clock, yet [Valid]
    takes a zero expiry for a token that never expires, and
    [AuthenticateClient] logs the valid-token line. *)
Lemma zero_expiry_counts_as_valid :
  let w := fixture.unexpiring in
  let run := exec (appEnv sample.repo) usecase.AuthenticateClient w in
  (repository.LoadToken sample.repo w).1 = (Some fixture.foreverToken, None) /\
  domain.Expiry fixture.foreverToken < now w /\
  lines (trace run) =
    ["Starting OAuth2 authentication..."; "Valid token found, authentication successful"] /\
  lines (trace run) <>
    ["Starting OAuth2 authentication..."; "Token expired, starting OAuth flow..."].
Proof. cbn zeta. repeat split; vm_compute; congruence. Qed.

(** C7, amended. With a config and a stored token whose expiry is set
    (not the zero time) and lies before the reading of the clock,
    [AuthenticateClient] returns the config without error, logs the
    expired-token line and not the valid-token line, and calls nothing
    on the service beyond [GetClient] and [LoadToken]: no exchange and
    no save, whatever the token's refresh token is. *)
Theorem expired_token_requires_authorization {S} (h : handler Env S)
    (s s1 s2 : S) (cfg : domain.Config) (tok : domain.Token) :
  h _ (Service domain.GetClient) s = (Ok cfg, s1) ->
  h _ (Service domain.LoadToken) s1 = ((Some tok, None), s2) ->
  IsZero (domain.Expiry tok) = false ->
  domain.Expiry tok < (h _ TimeNow s2).1 ->
  let run := exec h usecase.AuthenticateClient s in
  returned run = Ok cfg /\
  lines (trace run) =
    ["Starting OAuth2 authentication..."; "Token expired, starting OAuth flow..."] /\
  serviceCalls (trace run) = [existT _ domain.GetClient; existT _ domain.LoadToken].
Proof.
  intros Hc Hl Hz Hpast. cbn zeta.
  unfold usecase.AuthenticateClient, usecase.oauthService. run.
  rewrite Hc. run. rewrite Hl. run.
  unfold oauth2.Valid, oauth2.expired. rewrite Hz.
  case_decide; run; [done |].
  rewrite bool_decide_true by (unfold oauth2.defaultExpiryDelta, Second; lia).
  cbn [negb]. run. done.
Qed.

(** The expired token of the use case tests, one hour old and with a
    refresh token, on the sample disk. *)
Lemma expired_token_requires_authorization_witness :
  domain.RefreshToken sample.expiredToken = "refresh-me" /\
  domain.Expiry sample.expiredToken < now (sample.world []) /\
  let run := exec (appEnv sample.repo) usecase.AuthenticateClient (sample.world []) in
  returned run = Ok sample.testConfig /\
  lines (trace run) =
    ["Starting OAuth2 authentication..."; "Token expired, starting OAuth flow..."] /\
  serviceCalls (trace run) = [existT _ domain.GetClient; existT _ domain.LoadToken].
Proof.
  split; [reflexivity |]. split; [reflexivity |].
  apply (expired_token_requires_authorization (appEnv sample.repo)
           (sample.world []) (sample.world []) (sample.world [])
           sample.testConfig sample.expiredToken);
    reflexivity.
Defined.

(** ** [CompleteAuthentication] *)

(** X27. The exchange comes first and the save, if any, last, and the
    token saved is the token the exchange returned: these are the only
    calls on the service, in every environment. *)
Lemma CompleteAuthentication_exchanges_then_saves {S} (h : handler Env S)
    (code : string) (s : S) :
  serviceCalls (trace (exec h (usecase.CompleteAuthentication code) s)) =
    match (h _ (Service (domain.ExchangeCode code)) s).1 with
    | Err _ => [existT _ (domain.ExchangeCode code)]
    | Ok tok => [existT _ (domain.ExchangeCode code); existT _ (domain.SaveToken tok)]
    end.
Proof.
  unfold usecase.CompleteAuthentication, usecase.oauthService. run.
  destruct (h _ (Service (domain.ExchangeCode code)) s) as [[tok | e] s1]; run; [| done].
  destruct (h _ (Service (domain.SaveToken tok)) s1) as [[e |] s2]; run; done.
Qed.

(** C5. In every environment [CompleteAuthentication] begins with the
    exchange of the code.  When the exchange fails it returns that
    error, [SaveToken] is not called, and the environment is left in the
    state the failed exchange returned.  When the exchange succeeds, the
    save of the token received is the last call: only a log line follows
    it, and what the save returns is what is returned.  On the
    [OAuthRepository] a failed exchange leaves the world, and so the
    token file, exactly as it was. *)
Theorem exchange_first_save_last :
  (forall S (h : handler Env S) (s : S) (code : string),
     let exchanged := h _ (Service (domain.ExchangeCode code)) s in
     exec h (usecase.CompleteAuthentication code) s =
       match exchanged.1 with
       | Err e =>
           mkRun (Some e) exchanged.2
             [Line "Completing OAuth2 authentication with code...";
              Called (Service (domain.ExchangeCode code)) (Err e);
              Line ("Failed to exchange code for token: " +:+ e)]
       | Ok tok =>
           let saved := h _ (Service (domain.SaveToken tok)) exchanged.2 in
           mkRun saved.1 saved.2
             [Line "Completing OAuth2 authentication with code...";
              Called (Service (domain.ExchangeCode code)) (Ok tok);
              Called (Service (domain.SaveToken tok)) saved.1;
              Line match saved.1 with
                   | Some err => "Failed to save token: " +:+ err
                   | None => "Authentication completed successfully"
                   end]
       end) /\
  (forall (r : repository.OAuthRepository) (w : World) (code : string) (e : error),
     tokenEndpoint w code = Err e ->
     let run := exec (appEnv r) (usecase.CompleteAuthentication code) w in
     returned run = Some e /\
     final run = w /\
     serviceCalls (trace run) = [existT _ (domain.ExchangeCode code)]).
Proof.
  assert (Hrun : forall S (h : handler Env S) (s : S) (code : string),
    let exchanged := h _ (Service (domain.ExchangeCode code)) s in
    exec h (usecase.CompleteAuthentication code) s =
      match exchanged.1 with
      | Err e =>
          mkRun (Some e) exchanged.2
            [Line "Completing OAuth2 authentication with code...";
             Called (Service (domain.ExchangeCode code)) (Err e);
             Line ("Failed to exchange code for token: " +:+ e)]
      | Ok tok =>
          let saved := h _ (Service (domain.SaveToken tok)) exchanged.2 in
          mkRun saved.1 saved.2
            [Line "Completing OAuth2 authentication with code...";
             Called (Service (domain.ExchangeCode code)) (Ok tok);
             Called (Service (domain.SaveToken tok)) saved.1;
             Line match saved.1 with
                  | Some err => "Failed to save token: " +:+ err
                  | None => "Authentication completed successfully"
                  end]
      end).
  { intros S h s code. cbn zeta.
    unfold usecase.CompleteAuthentication, usecase.oauthService. run.
    destruct (h _ (Service (domain.ExchangeCode code)) s) as [[tok | e] s1]; run; [| done].
    destruct (h _ (Service (domain.SaveToken tok)) s1) as [[e |] s2]; run; done. }
  split; [exact Hrun |].
  intros r w code e Hx. cbn zeta. rewrite Hrun.
  cbn [appEnv service repository.ExchangeCode fst snd]. rewrite Hx. done.
Qed.

(** On the sample world: a code the token endpoint refuses leaves the
    token file as it was, and a code it accepts is exchanged and the
    token then saved. *)
Lemma exchange_first_save_last_witness :
  sample.endpoint "stale-code" = Err "oauth2: cannot fetch token: 400 Bad Request" /\
  (let run := exec (appEnv sample.repo) (usecase.CompleteAuthentication "stale-code")
                (sample.world []) in
   returned run = Some "oauth2: cannot fetch token: 400 Bad Request" /\
   final run = sample.world [] /\
   serviceCalls (trace run) = [existT _ (domain.ExchangeCode "stale-code")]) /\
  serviceCalls (trace (exec (appEnv sample.repo)
                         (usecase.CompleteAuthentication "test-auth-code")
                         (sample.world []))) =
    [existT _ (domain.ExchangeCode "test-auth-code");
     existT _ (domain.SaveToken sample.mockToken)].
Proof.
  split; [reflexivity |]. split.
  - exact (proj2 exchange_first_save_last sample.repo (sample.world []) "stale-code"
             "oauth2: cannot fetch token: 400 Bad Request" eq_refl).
  - rewrite (proj1 exchange_first_save_last World (appEnv sample.repo)
               (sample.world []) "test-auth-code").
    reflexivity.
Defined.

(** The success path, as the test of the use case runs it: the exchange,
    then the save, and the token file holds the new record. *)
Example CompleteAuthentication_saves_last :
  let run := exec (appEnv sample.repo) (usecase.CompleteAuthentication "test-auth-code")
               (sample.world []) in
  returned run = None /\
  serviceCalls (trace run) =
    [existT _ (domain.ExchangeCode "test-auth-code");
     existT _ (domain.SaveToken sample.mockToken)] /\
  files (final run) !! repository.tokenFile =
    Some (sample.marshal sample.mockToken +:+ "
").
Proof. repeat split; vm_compute; reflexivity. Qed.


(** ** The local server flow *)

(** What the handler does on its route, case by case. *)
Lemma served_cases (state : string) (req : http.Request) :
  http.Path req = "/oauth2callback" ->
  served state req =
    match spec.outcome state req with
    | spec.Success code =>
        [Called (http.HeaderSet "Content-Type" "text/html") tt;
         Called (http.WriteHeader 200) tt;
         Called (http.Write usecase.successPage) tt;
         Called (http.Send (http.OnCodeChan code)) tt]
    | failure => [Called (http.Send (http.OnErrChan (spec.message failure))) tt]
    end.
Proof.
  intros Hp. unfold served, usecase.callbackHandler, spec.outcome.
  rewrite decide_True by done.
  repeat case_decide; reflexivity.
Qed.

(** On its route the handler always sends exactly one signal. *)
Lemma signalled_callback (state : string) (req : http.Request) :
  http.Path req = "/oauth2callback" ->
  signalled (usecase.callbackHandler state req) =
    Some match spec.outcome state req with
         | spec.Success code => http.OnCodeChan code
         | failure => http.OnErrChan (spec.message failure)
         end.
Proof.
  intros Hp. unfold signalled, usecase.callbackHandler, spec.outcome.
  rewrite decide_True by done.
  repeat case_decide; reflexivity.
Qed.

(** On any other path it answers not-found and sends nothing. *)
Lemma signalled_elsewhere (state : string) (req : http.Request) :
  http.Path req ≠ "/oauth2callback" ->
  signalled (usecase.callbackHandler state req) = None.
Proof.
  intros Hp. unfold signalled, usecase.callbackHandler.
  by rewrite decide_False.
Qed.

(** Quiet requests never wake the [select]. *)
Lemma firstSignal_quiet state timeout pre rest :
  Forall (quiet timeout) pre ->
  firstSignal (usecase.callbackHandler state) timeout (pre ++ rest) =
  firstSignal (usecase.callbackHandler state) timeout rest.
Proof.
  induction 1 as [| [t r] pre [Hlate | Hpath] _ IH]; simpl in *; [done | |].
  - by rewrite decide_False by lia.
  - rewrite signalled_elsewhere by done. by case_decide.
Qed.

(** The run of the flow in any environment: six calls in a fixed order,
    then one of the three cases of the [select], each after the shutdown. *)
Lemma flow_run {S} (h : handler Env S) (s : S) :
  let now := (h _ TimeNow s).1 in
  let s1 := (h _ TimeNow s).2 in
  let state := usecase.authState now in
  let url := (h _ (Service (domain.GetAuthURLWithState state)) s1).1 in
  let s2 := (h _ (Service (domain.GetAuthURLWithState state)) s1).2 in
  let s3 := (h _ MakeChans s2).2 in
  let server := http.mkServer ":8080" (usecase.callbackHandler state) in
  let g := usecase.serverGoroutine server url in
  let s4 := (h _ (Go g) s3).2 in
  let sel := (h _ (Select (10 * Minute)) s4).1 in
  let s5 := (h _ (Select (10 * Minute)) s4).2 in
  let sd := (h _ (Shutdown server (5 * Second)) s5).1 in
  let s6 := (h _ (Shutdown server (5 * Second)) s5).2 in
  let rest :=
    match sel with
    | http.RecvCode code => exec h (usecase.CompleteAuthentication code) s6
    | http.RecvErr err => mkRun (Some err) s6 []
    | http.TimeAfter => mkRun (Some "OAuth flow timed out") s6 []
    end in
  exec h usecase.CompleteAuthenticationWithServer s =
  mkRun (returned rest) (final rest)
    ([Line "Starting OAuth2 flow with local server...";
      Called TimeNow now;
      Called (Service (domain.GetAuthURLWithState state)) url;
      Called MakeChans (h _ MakeChans s2).1;
      Called (Go g) (h _ (Go g) s3).1;
      Called (Select (10 * Minute)) sel;
      Called (Shutdown server (5 * Second)) sd] ++ trace rest).
Proof.
  cbn zeta. unfold usecase.CompleteAuthenticationWithServer, usecase.oauthService.
  run. destruct (h _ (Select (10 * Minute)) _).1; run; reflexivity.
Qed.

(** With no listen fault the goroutine brings the listener up and sends
    nothing. *)
Lemma Go_listening (server : http.Server) (url : string) (w : World) :
  listenFault w = None ->
  final (exec goH (usecase.serverGoroutine server url) w) =
  with_listener (arrivals w) (codeChan w) (errChan w) (Some server) w.
Proof.
  intros Hl. unfold usecase.serverGoroutine. run.
  cbn [goH]. rewrite Hl. cbn [fst snd]. rewrite decide_False by (intros ?; done).
  reflexivity.
Qed.

(** The same run on the world, where the case of the [select] is the
    first signal of the handler among the callbacks in time. *)
Lemma world_flow (r : repository.OAuthRepository) (w : World) :
  listenFault w = None ->
  let state := usecase.authState (now w) in
  let server := http.mkServer ":8080" (usecase.callbackHandler state) in
  let url := authCodeURL w (repository.config r) state in
  let rest :=
    match chosen state w with
    | http.RecvCode code => exec (appEnv r) (usecase.CompleteAuthentication code) (shut w)
    | http.RecvErr err => mkRun (Some err) (shut w) []
    | http.TimeAfter => mkRun (Some "OAuth flow timed out") (shut w) []
    end in
  exec (appEnv r) usecase.CompleteAuthenticationWithServer w =
  mkRun (returned rest) (final rest)
    ([Line "Starting OAuth2 flow with local server...";
      Called TimeNow (now w);
      Called (Service (domain.GetAuthURLWithState state)) url;
      Called MakeChans tt;
      Called (Go (usecase.serverGoroutine server url)) tt;
      Called (Select (10 * Minute)) (chosen state w);
      Called (Shutdown server (5 * Second)) None] ++ trace rest).
Proof.
  intros Hl. cbn zeta. rewrite flow_run.
  cbn [appEnv service fst snd repository.GetAuthURLWithState].
  rewrite Go_listening by exact Hl.
  unfold select, chosen, shut. cbn.
  destruct (firstSignal _ _ _) as [[c | e] |]; reflexivity.
Qed.

(** [CompleteAuthentication] arms no timer, shuts nothing down and mints
    no state. *)
Lemma CompleteAuthentication_only_service {S} (h : handler Env S) (code : string) (s : S) :
  let tr := trace (exec h (usecase.CompleteAuthentication code) s) in
  timers tr = [] /\ shutdowns tr = [] /\ selected tr = [] /\ mintedStates tr = [].
Proof.
  cbn zeta. unfold usecase.CompleteAuthentication, usecase.oauthService. run.
  destruct (h _ (Service (domain.ExchangeCode code)) s) as [[tok | e] s1]; run; [| done].
  destruct (h _ (Service (domain.SaveToken tok)) s1) as [[e |] s2]; run; done.
Qed.

(** It runs the same whatever [Shutdown] would answer. *)
Lemma CompleteAuthentication_answerShutdown {S} (h : handler Env S) (ans : option error)
    (code : string) (s : S) :
  exec (answerShutdown ans h) (usecase.CompleteAuthentication code) s =
  exec h (usecase.CompleteAuthentication code) s.
Proof.
  unfold usecase.CompleteAuthentication, usecase.oauthService. run.
  cbn [answerShutdown].
  destruct (h _ (Service (domain.ExchangeCode code)) s) as [[tok | e] s1]; run; [| done].
  cbn [answerShutdown].
  destruct (h _ (Service (domain.SaveToken tok)) s1) as [[e |] s2]; run; done.
Qed.

(** C1. For every request on [/oauth2callback] the handler follows the
    ordered case analysis of the specification: on a failure (an [error]
    parameter, else a [state] other than the minted one, else an empty
    [code]) it does nothing but send that error on the error channel; on
    success it sets the content type, writes status 200 and the success
    page, and sends the code on the code channel.  When such a request is
    the first callback to reach the listener before the timer, the
    [select] receives exactly that signal; on each of the three failures
    the flow returns that error, its only call on the service is the one
    that built the authorization URL (no exchange, no save), and the
    files are untouched; on success it goes on to [CompleteAuthentication]
    with the code. *)
Theorem callback_decides_in_order (state : string) (req : http.Request) :
  http.Path req = "/oauth2callback" ->
  served state req =
    match spec.outcome state req with
    | spec.Success code =>
        [Called (http.HeaderSet "Content-Type" "text/html") tt;
         Called (http.WriteHeader 200) tt;
         Called (http.Write usecase.successPage) tt;
         Called (http.Send (http.OnCodeChan code)) tt]
    | failure => [Called (http.Send (http.OnErrChan (spec.message failure))) tt]
    end /\
  forall (r : repository.OAuthRepository) (w : World)
         (pre rest : list (Duration * http.Request)) (t : Duration),
    state = usecase.authState (now w) ->
    listenFault w = None ->
    arrivals w = pre ++ (t, req) :: rest ->
    Forall (quiet (10 * Minute)) pre ->
    t < 10 * Minute ->
    let run := exec (appEnv r) usecase.CompleteAuthenticationWithServer w in
    match spec.outcome state req with
    | spec.Success code =>
        selected (trace run) = [http.RecvCode code] /\
        returned run =
          returned (exec (appEnv r) (usecase.CompleteAuthentication code) (shut w))
    | failure =>
        selected (trace run) = [http.RecvErr (spec.message failure)] /\
        returned run = Some (spec.message failure) /\
        serviceCalls (trace run) = [existT _ (domain.GetAuthURLWithState state)] /\
        files (final run) = files w
    end.
Proof.
  intros Hp. split; [by apply served_cases |].
  intros r w pre rest t -> Hl Harr Hq Ht. cbn zeta.
  rewrite world_flow by done. unfold chosen.
  rewrite Harr, firstSignal_quiet by done. cbn [firstSignal].
  rewrite decide_True by done. rewrite signalled_callback by done.
  destruct (spec.outcome _ req) as [reason | | | code]; try done.
  cbn [returned trace]. split; [| done].
  unfold selected. rewrite omap_app.
  destruct (CompleteAuthentication_only_service (appEnv r) code (shut w)) as (_ & _ & Hs & _).
  unfold selected in Hs. by rewrite Hs.
Qed.


(** One callback per case on the sample world, whose clock mints the
    state [random-state-1700000000]. *)
Lemma callback_decides_in_order_witness :
  let denied := sample.callback [("error", ["access_denied"]); ("code", ["c"])] in
  let forged := sample.callback [("state", ["guess"]); ("code", ["c"])] in
  let empty := sample.callback [("state", ["random-state-1700000000"])] in
  let flow arr := exec (appEnv sample.repo) usecase.CompleteAuthenticationWithServer
                    (sample.world arr) in
  served "random-state-1700000000" denied =
    [Called (http.Send (http.OnErrChan "OAuth error: access_denied")) tt] /\
  returned (flow [(Second, denied)]) = Some "OAuth error: access_denied" /\
  returned (flow [(Second, forged)]) = Some "invalid state parameter" /\
  returned (flow [(Second, empty)]) = Some "no authorization code received" /\
  files (final (flow [(Second, forged)])) = files (sample.world [(Second, forged)]).
Proof.
  cbn zeta.
  pose proof (callback_decides_in_order "random-state-1700000000"
    (sample.callback [("error", ["access_denied"]); ("code", ["c"])]) eq_refl) as [Hs Hd].
  pose proof (callback_decides_in_order "random-state-1700000000"
    (sample.callback [("state", ["guess"]); ("code", ["c"])]) eq_refl) as [_ Hf].
  pose proof (callback_decides_in_order "random-state-1700000000"
    (sample.callback [("state", ["random-state-1700000000"])]) eq_refl) as [_ He].
  specialize (Hd sample.repo (sample.world [(Second, _)]) [] [] Second
                eq_refl eq_refl eq_refl (Forall_nil_2 _) eq_refl).
  specialize (Hf sample.repo (sample.world [(Second, _)]) [] [] Second
                eq_refl eq_refl eq_refl (Forall_nil_2 _) eq_refl).
  specialize (He sample.repo (sample.world [(Second, _)]) [] [] Second
                eq_refl eq_refl eq_refl (Forall_nil_2 _) eq_refl).
  split; [exact Hs |].
  split; [exact (proj1 (proj2 Hd)) |].
  split; [exact (proj1 (proj2 Hf)) |].
  split; [exact (proj1 (proj2 He)) |].
  exact (proj2 (proj2 (proj2 Hf))).
Defined.

(** The success case on the sample world: the code is exchanged and the
    token saved. *)
Example callback_with_code_completes :
  let granted := sample.callback
    [("state", ["random-state-1700000000"]); ("code", ["test-auth-code"])] in
  let run := exec (appEnv sample.repo) usecase.CompleteAuthenticationWithServer
               (sample.world [(Second, granted)]) in
  returned run = None /\
  selected (trace run) = [http.RecvCode "test-auth-code"] /\
  files (final run) !! repository.tokenFile =
    Some (sample.marshal sample.mockToken +:+ "
").
Proof. repeat split; vm_compute; reflexivity. Qed.

(** C2. The state string of a run is [random-state-] followed by the
    Unix second at which the run read the clock, and nothing else: two
    runs that read the clock within the same second hand the same state
    to [GetAuthURLWithState]. *)
Theorem state_repeats_within_a_second {S1 S2} (h1 : handler Env S1) (h2 : handler Env S2) (s1 : S1) (s2 : S2) :
  Unix (h1 _ TimeNow s1).1 = Unix (h2 _ TimeNow s2).1 ->
  mintedStates (trace (exec h1 usecase.CompleteAuthenticationWithServer s1)) =
    ["random-state-" +:+ pretty (Unix (h1 _ TimeNow s1).1)] /\
  mintedStates (trace (exec h2 usecase.CompleteAuthenticationWithServer s2)) =
  mintedStates (trace (exec h1 usecase.CompleteAuthenticationWithServer s1)).
Proof.
  assert (Hm : forall S (h : handler Env S) s,
    mintedStates (trace (exec h usecase.CompleteAuthenticationWithServer s)) =
    [usecase.authState (h _ TimeNow s).1]).
  { intros S h s. rewrite flow_run. cbn [trace]. unfold mintedStates. rewrite omap_app.
    destruct (h _ (Select (10 * Minute)) _).1 as [code | err |]; try done.
    match goal with
    | |- context [exec h (usecase.CompleteAuthentication code) ?s6] =>
        destruct (CompleteAuthentication_only_service h code s6) as (_ & _ & _ & Hm)
    end.
    unfold mintedStates in Hm. by rewrite Hm. }
  intros Hsec. rewrite !Hm. unfold usecase.authState. by rewrite Hsec.
Qed.

(** Two runs four tenths of a second apart. *)
Lemma state_repeats_within_a_second_witness :
  let w1 := sample.worldAt sample.clock [] in
  let w2 := sample.worldAt (sample.clock + 400000000) [] in
  now w1 <> now w2 /\
  mintedStates (trace (exec (appEnv sample.repo) usecase.CompleteAuthenticationWithServer w1)) =
    ["random-state-1700000000"] /\
  mintedStates (trace (exec (appEnv sample.repo) usecase.CompleteAuthenticationWithServer w2)) =
  mintedStates (trace (exec (appEnv sample.repo) usecase.CompleteAuthenticationWithServer w1)).
Proof.
  cbn zeta. split; [discriminate |].
  exact (state_repeats_within_a_second (appEnv sample.repo) (appEnv sample.repo)
           (sample.worldAt sample.clock [])
           (sample.worldAt (sample.clock + 400000000) []) eq_refl).
Defined.

(** X26. The state is as good as the clock: it differs between two runs
    exactly when their Unix seconds differ. *)
Lemma authState_inj (now1 now2 : Time) :
  usecase.authState now1 = usecase.authState now2 <-> Unix now1 = Unix now2.
Proof.
  unfold usecase.authState. split; [| by intros ->].
  intros H. apply (inj pretty). by apply (inj (String.app "random-state-")).
Qed.

(** C8. In every environment the flow arms its [select] with one timer
    of ten minutes and calls [Shutdown] exactly once, with a grace period
    of five seconds, whichever case fires; what [Shutdown] answers has no
    influence on what the flow returns.  On the world, when the listener
    is up and no callback request arrives before the timer, the timer
    case fires, the flow returns the timeout error and the listener is
    down. *)
Theorem timeout_and_single_shutdown :
  (forall S (h : handler Env S) (s : S),
     let tr := trace (exec h usecase.CompleteAuthenticationWithServer s) in
     timers tr = [10 * Minute] /\ shutdowns tr = [5 * Second]) /\
  (forall S (h : handler Env S) (ans : option error) (s : S),
     returned (exec (answerShutdown ans h) usecase.CompleteAuthenticationWithServer s) =
     returned (exec h usecase.CompleteAuthenticationWithServer s)) /\
  (forall (r : repository.OAuthRepository) (w : World),
     listenFault w = None ->
     Forall (quiet (10 * Minute)) (arrivals w) ->
     let run := exec (appEnv r) usecase.CompleteAuthenticationWithServer w in
     returned run = Some "OAuth flow timed out" /\
     selected (trace run) = [http.TimeAfter] /\
     serving (final run) = None).
Proof.
  split; [| split].
  - intros S h s. cbn zeta. rewrite flow_run. cbn [trace].
    unfold timers, shutdowns. rewrite !omap_app.
    destruct (h _ (Select (10 * Minute)) _).1 as [code | err |]; try done.
    match goal with
    | |- context [exec h (usecase.CompleteAuthentication code) ?s6] =>
        destruct (CompleteAuthentication_only_service h code s6) as (Ht & Hs & _)
    end.
    unfold timers, shutdowns in Ht, Hs. rewrite Ht, Hs. done.
  - intros S h ans s. rewrite !flow_run. cbn [returned answerShutdown fst snd].
    destruct (h _ (Select (10 * Minute)) _).1 as [code | err |]; try done.
    by rewrite CompleteAuthentication_answerShutdown.
  - intros r w Hl Hq. cbn zeta. rewrite world_flow by done.
    unfold chosen. rewrite <- (app_nil_r (arrivals w)), firstSignal_quiet by done.
    done.
Qed.


(** When the listener cannot bind, the goroutine puts its error on the
    error channel and the flow returns it without waiting for the timer. *)
Example listen_failure_is_an_error_outcome :
  let run := exec (appEnv sample.repo) usecase.CompleteAuthenticationWithServer
               sample.portTaken in
  returned run =
    Some "server error: listen tcp :8080: bind: address already in use" /\
  shutdowns (trace run) = [5 * Second].
Proof. split; vm_compute; reflexivity. Qed.

(** A request for another path after one second and a callback after
    eleven minutes: the flow times out. *)
Lemma timeout_and_single_shutdown_witness :
  let late := sample.callback
    [("state", ["random-state-1700000000"]); ("code", ["test-auth-code"])] in
  let w := sample.world [(Second, http.mkRequest "/favicon.ico" ∅); (11 * Minute, late)] in
  let run := exec (appEnv sample.repo) usecase.CompleteAuthenticationWithServer w in
  returned run = Some "OAuth flow timed out" /\
  selected (trace run) = [http.TimeAfter] /\
  serving (final run) = None.
Proof.
  cbn zeta.
  apply (proj2 (proj2 timeout_and_single_shutdown) sample.repo); [reflexivity |].
  apply Forall_cons_2; [right; discriminate |].
  apply Forall_cons_2; [left; vm_compute; discriminate |].
  apply Forall_nil_2.
Defined.

(** ** The album transport *)

(** C3. [CreateAlbum] never looks at the status of the response: as soon
    as the request is sent and the body of the answer decodes to an
    album, that album is returned as a success, whatever the status code
    is.  The sibling paths [GetAlbumByID] and [readAndParseResponse]
    reject every status other than 200 before they decode. *)
Theorem CreateAlbum_ignores_status `{Wire RespBody} {S} (h : handler (http.ClientE RespBody) S) (s s1 : S)
    (title jsonBody : string) (resp : http.Response RespBody) (album : domain.Album) :
  json_Marshal (JObject "album" (JObject "title" (JString title))) = Ok jsonBody ->
  url_Parse repository.albumsEndpoint = None ->
  h _ (http.Do (http.SetHeader "Content-Type" "application/json"
         (http.mkClientRequest "POST" repository.albumsEndpoint ∅ (Some jsonBody)))) s
    = (Ok resp, s1) ->
  json_Decode_Album (http.RespBodyOf resp) = Ok album ->
  returned (exec h (repository.CreateAlbum title) s) = Ok album.
Proof.
  intros Hm Hu Hdo Hdec. unfold repository.CreateAlbum, repository.NewRequest.
  rewrite Hm, Hu. run. rewrite Hdo. cbn [fst snd]. rewrite Hdec. by run.
Qed.

(** A 403 answer whose error document decodes, as any JSON object does,
    to an album with empty fields. *)
Lemma CreateAlbum_ignores_status_witness :
  let resp := http.mkResponse 403 "403 Forbidden" "{error:{code:403,status:PERMISSION_DENIED}}" in
  spec.is2xx (http.StatusCode resp) = false /\
  returned (exec (sample.transport resp) (repository.CreateAlbum "holiday") tt) =
    Ok (domain.mkAlbum "" "").
Proof.
  cbn zeta. split; [reflexivity |].
  apply (CreateAlbum_ignores_status (sample.transport (http.mkResponse 403 "403 Forbidden"
                 "{error:{code:403,status:PERMISSION_DENIED}}"))
           tt tt "holiday" "{album:{title:holiday}}"
           (http.mkResponse 403 "403 Forbidden"
              "{error:{code:403,status:PERMISSION_DENIED}}"));
    reflexivity.
Defined.

(** C4 as written fails on a 204 answer: the status is in the 2xx range
    and all three calls fail with the status error. *)
Lemma api_error_on_a_2xx_status :
  let resp := http.mkResponse 204 "204 No Content" "" in
  spec.is2xx (http.StatusCode resp) = true /\
  ~ (returned (exec (sample.transport resp) repository.ListAlbums tt) =
       Err "unexpected status code: 204" <-> spec.is2xx (http.StatusCode resp) = false) /\
  returned (exec (sample.transport resp) repository.ListAlbums tt) =
    Err "unexpected status code: 204" /\
  returned (exec (sample.transport resp) (repository.FetchNextPage "XYZ") tt) =
    Err "unexpected status code: 204" /\
  returned (exec (sample.transport resp) (repository.GetAlbumByID "1") tt) =
    Err "API error: 204 No Content".
Proof.
  cbn zeta. split; [reflexivity |]. split; [| repeat split; vm_compute; reflexivity].
  intros [Hfails _]. specialize (Hfails eq_refl). discriminate Hfails.
Qed.

(** [readAndParseResponse] accepts status 200 and nothing else. *)
Lemma readAndParseResponse_cases `{Wire RespBody} {S} (h : handler (http.ClientE RespBody) S)
    (s : S) (resp : http.Response RespBody) :
  returned (exec h (repository.readAndParseResponse resp) s) =
    if decide (http.StatusCode resp = 200) then repository.decodedPage resp
    else Err ("unexpected status code: " +:+ pretty (http.StatusCode resp)).
Proof.
  unfold repository.readAndParseResponse, repository.decodedPage, http.StatusOK.
  destruct (decide (http.StatusCode resp = 200)) as [-> | Hne].
  - rewrite decide_False by (intros ?; done).
    destruct (io_ReadAll _) as [body | e]; run; [| done].
    destruct (json_Unmarshal_AlbumsResponse body); by run.
  - by rewrite decide_True.
Qed.

(** A failure of reading or decoding is never mistaken for a status
    error: the messages differ from their first letter. *)
Lemma decodedPage_not_status `{Wire RespBody} (resp : http.Response RespBody) (st : string) :
  repository.decodedPage resp <> Err ("unexpected status code: " +:+ st).
Proof.
  unfold repository.decodedPage.
  destruct (io_ReadAll _) as [body | e]; [| simpl; discriminate].
  destruct (json_Unmarshal_AlbumsResponse body); simpl; discriminate.
Qed.

Lemma decodedAlbum_not_status `{Wire RespBody} (resp : http.Response RespBody) (st : string) :
  repository.decodedAlbum resp <> Err ("API error: " +:+ st).
Proof.
  unfold repository.decodedAlbum.
  destruct (json_Decode_Album _); simpl; discriminate.
Qed.

(** C4, amended. When the request is well formed and the API answers
    with a response, [ListAlbums], [FetchNextPage] and [GetAlbumByID]
    fail with the status error exactly when the status code is not 200,
    and on a 200 answer they return what reading and decoding the body
    gives. *)
Theorem api_error_iff_not_200 `{Wire RespBody} {S} (h : handler (http.ClientE RespBody) S) (s : S)
    (resp : http.Response RespBody) (id token : string) :
  url_Parse repository.albumsEndpoint = None ->
  url_Parse (repository.albumsEndpoint +:+ "?pageToken=" +:+ token) = None ->
  url_Parse (repository.albumsEndpoint +:+ "/" +:+ id) = None ->
  (forall req, (h _ (http.Do req) s).1 = Ok resp) ->
  let status := http.StatusCode resp in
  let list := returned (exec h repository.ListAlbums s) in
  let page := returned (exec h (repository.FetchNextPage token) s) in
  let get := returned (exec h (repository.GetAlbumByID id) s) in
  (list = Err ("unexpected status code: " +:+ pretty status) <-> status <> 200) /\
  (page = Err ("unexpected status code: " +:+ pretty status) <-> status <> 200) /\
  (get = Err ("API error: " +:+ http.Status resp) <-> status <> 200) /\
  (status = 200 ->
   list = repository.decodedPage resp /\
   page = repository.decodedPage resp /\
   get = repository.decodedAlbum resp).
Proof.
  intros Hu Hut Hui Hdo. cbn zeta.
  assert (Hl : returned (exec h repository.ListAlbums s) =
    if decide (http.StatusCode resp = 200) then repository.decodedPage resp
    else Err ("unexpected status code: " +:+ pretty (http.StatusCode resp))).
  { unfold repository.ListAlbums, repository.makeAlbumsRequest, repository.NewRequest.
    rewrite Hu. run. rewrite Hdo. apply readAndParseResponse_cases. }
  assert (Hp : returned (exec h (repository.FetchNextPage token) s) =
    if decide (http.StatusCode resp = 200) then repository.decodedPage resp
    else Err ("unexpected status code: " +:+ pretty (http.StatusCode resp))).
  { unfold repository.FetchNextPage, repository.makeAlbumsRequest, repository.NewRequest.
    rewrite Hut. run. rewrite Hdo. apply readAndParseResponse_cases. }
  assert (Hg : returned (exec h (repository.GetAlbumByID id) s) =
    if decide (http.StatusCode resp = 200) then repository.decodedAlbum resp
    else Err ("API error: " +:+ http.Status resp)).
  { unfold repository.GetAlbumByID, repository.NewRequest, repository.decodedAlbum, http.StatusOK.
    rewrite Hui. run. rewrite Hdo.
    destruct (decide (http.StatusCode resp = 200)) as [-> | Hne].
    - rewrite decide_False by (intros ?; done).
      destruct (json_Decode_Album _); by run.
    - by rewrite decide_True. }
  rewrite Hl, Hp, Hg.
  destruct (decide (http.StatusCode resp = 200)) as [H200 | Hne].
  - repeat split; try done; intros Heq; exfalso.
    + by apply decodedPage_not_status in Heq.
    + by apply decodedPage_not_status in Heq.
    + by apply decodedAlbum_not_status in Heq.
  - repeat split; done.
Qed.

(** A 404 answer on the sample transport. *)
Lemma api_error_iff_not_200_witness :
  let resp := http.mkResponse 404 "404 Not Found" "" in
  returned (exec (sample.transport resp) repository.ListAlbums tt) =
    Err "unexpected status code: 404" /\
  returned (exec (sample.transport resp) (repository.GetAlbumByID "1") tt) =
    Err "API error: 404 Not Found".
Proof.
  cbn zeta.
  pose proof (api_error_iff_not_200 (sample.transport (http.mkResponse 404 "404 Not Found" ""))
                tt (http.mkResponse 404 "404 Not Found" "") "1" "XYZ"
                eq_refl eq_refl eq_refl (fun _ => eq_refl)) as (Hl & _ & Hg & _).
  cbn zeta in Hl, Hg.
  split; [apply Hl | apply Hg]; discriminate.
Defined.

(** A 200 answer with an empty document decodes to an empty last page. *)
Example list_decodes_on_200 :
  returned (exec (sample.transport (http.mkResponse 200 "200 OK" "{}"))
              repository.ListAlbums tt) =
    Ok (domain.mkAlbumsResponse [] "").
Proof. vm_compute. reflexivity. Qed.

(** ** [SaveToken] *)

(** C6, amended. [SaveToken] truncates the token file and then writes the
    encoded record in one write.  When creating the file fails it returns
    the wrapped error and the world is untouched; when the write succeeds
    it returns no error and the file holds exactly the record and a
    newline; when the write fails it returns that error and the file
    holds only the bytes written before the failure, the previous record
    being gone. *)
Theorem save_truncates_then_writes (r : repository.OAuthRepository) (tok : domain.Token) (w : World) :
  let res := repository.SaveToken r tok w in
  let doc := marshalToken w tok +:+ "
" in
  match createFault w with
  | Some e => res = (Some ("failed to create token file: " +:+ e), w)
  | None =>
      match writeFault w with
      | None =>
          res.1 = None /\ files res.2 = <[repository.tokenFile := doc]> (files w)
      | Some (n, e) =>
          res.1 = Some e /\
          files res.2 = <[repository.tokenFile := String.substring 0 n doc]> (files w)
      end
  end.
Proof.
  cbn zeta. unfold repository.SaveToken, os.Create, os.Encode, os.Write, mbind, M_bind.
  destruct (createFault w) as [e |] eqn:Hc; [done |].
  cbn. rewrite lookup_insert_eq. cbn.
  destruct (writeFault w) as [[n e] |]; cbn; rewrite insert_insert_eq; done.
Qed.

(** C6 as written fails on a disk that fills up after five bytes:
    [SaveToken] reports the write error and leaves a file that is neither
    the old record nor the new one. *)
Lemma save_leaves_partial_file :
  let res := repository.SaveToken sample.repo sample.mockToken sample.fullDisk in
  let before := files sample.fullDisk !! repository.tokenFile in
  let after := files res.2 !! repository.tokenFile in
  res.1 = Some "write token.json: no space left on device" /\
  after = Some "{acce" /\
  after <> before /\
  after <> Some (sample.marshal sample.mockToken +:+ "
").
Proof. repeat split; vm_compute; congruence. Qed.

(** * Further properties of the code *)

(** ** Reading traces *)

Lemma lines_nil {E} : lines (@nil (Obs E)) = [].
Proof. reflexivity. Qed.

Lemma lines_line {E} (l : string) (t : list (Obs E)) : lines (Line l :: t) = l :: lines t.
Proof. reflexivity. Qed.

Lemma lines_called {E X} (e : E X) (x : X) (t : list (Obs E)) :
  lines (Called e x :: t) = lines t.
Proof. reflexivity. Qed.

Lemma lines_app {E} (t1 t2 : list (Obs E)) : lines (t1 ++ t2) = lines t1 ++ lines t2.
Proof. apply omap_app. Qed.

Lemma sent_nil {B} : sent (@nil (Obs (http.ClientE B))) = [].
Proof. reflexivity. Qed.

Lemma sent_line {B} (l : string) (t : list (Obs (http.ClientE B))) :
  sent (Line l :: t) = sent t.
Proof. reflexivity. Qed.

Lemma sent_do {B} (req : http.ClientRequest) (x : result (http.Response B))
    (t : list (Obs (http.ClientE B))) :
  sent (Called (http.Do req) x :: t) = req :: sent t.
Proof. reflexivity. Qed.

Lemma sent_app {B} (t1 t2 : list (Obs (http.ClientE B))) :
  sent (t1 ++ t2) = sent t1 ++ sent t2.
Proof. apply omap_app. Qed.

Lemma serviceCalls_nil : serviceCalls [] = [].
Proof. reflexivity. Qed.

Lemma serviceCalls_line (l : string) (t : list (Obs Env)) :
  serviceCalls (Line l :: t) = serviceCalls t.
Proof. reflexivity. Qed.

Lemma serviceCalls_service {X} (m : domain.OAuthService X) (x : X) (t : list (Obs Env)) :
  serviceCalls (Called (Service m) x :: t) = existT _ m :: serviceCalls t.
Proof. reflexivity. Qed.

Lemma serviceCalls_app (t1 t2 : list (Obs Env)) :
  serviceCalls (t1 ++ t2) = serviceCalls t1 ++ serviceCalls t2.
Proof. apply omap_app. Qed.

(** [read], [wire] and [tally] push [lines], [sent] and [serviceCalls]
    through a trace. *)
Ltac read :=
  repeat (rewrite ?lines_line, ?lines_called, ?lines_app, ?lines_nil; cbn [app]).

Ltac wire :=
  repeat (rewrite ?sent_line, ?sent_do, ?sent_app, ?sent_nil; cbn [app]).

Ltac tally :=
  repeat (rewrite ?serviceCalls_line, ?serviceCalls_service, ?serviceCalls_app,
            ?serviceCalls_nil; cbn [app]).

(** ** The album use case and the commands *)

(** X1. Each method of the album use case makes exactly one call, the
    repository method of the same name with the same argument, returns
    its answer unchanged (value or error) and leaves the repository in
    the state that call produced. *)
Theorem album_usecase_passes_through (id title token : string) :
  passes_through usecase.ListAlbums domain.ListAlbums /\
  passes_through (usecase.GetAlbumByID id) (domain.GetAlbumByID id) /\
  passes_through (usecase.CreateAlbum title) (domain.CreateAlbum title) /\
  passes_through (usecase.FetchNextPage token) (domain.FetchNextPage token).
Proof.
  unfold passes_through. repeat split; cbn zeta.
  all: unfold usecase.ListAlbums, usecase.GetAlbumByID, usecase.CreateAlbum,
         usecase.FetchNextPage; run.
  all: destruct (h _ _ s) as [[a | e] s1]; run; try done.
  all: case_decide; run; done.
Qed.

Lemma lines_printAlbumLines {E S} (h : handler E S) (albums : list domain.Album) (s : S) :
  lines (trace (exec h (delivery.printAlbumLines albums) s)) = albumLine <$> albums.
Proof.
  induction albums as [| a rest IH]; [done |].
  cbn [delivery.printAlbumLines]. run. read. by rewrite IH.
Qed.

Lemma lines_printAlbums {E S} (h : handler E S) (albums : list domain.Album) (s : S) :
  lines (trace (exec h (delivery.printAlbums albums) s)) =
    match albums with
    | [] => ["No albums found."]
    | _ => "Albums:" :: (albumLine <$> albums)
    end.
Proof.
  unfold delivery.printAlbums. destruct albums as [| a rest].
  - by rewrite decide_True.
  - rewrite decide_False by done. run. read. by rewrite lines_printAlbumLines.
Qed.

(** X2. [printAlbums] calls nothing and changes nothing; it logs one line
    per album, in the order of the list and under the heading [Albums:],
    or the single line [No albums found.] for an empty list. *)
Theorem printAlbums_one_line_per_album {E S} (h : handler E S)
    (albums : list domain.Album) (s : S) :
  let run := exec h (delivery.printAlbums albums) s in
  final run = s /\
  calls (trace run) = [] /\
  lines (trace run) =
    match albums with
    | [] => ["No albums found."]
    | _ => "Albums:" :: (albumLine <$> albums)
    end /\
  length (lines (trace run)) =
    match albums with
    | [] => 1%nat
    | _ => (1 + length albums)%nat
    end.
Proof.
  cbn zeta. destruct (exec_printAlbums h albums s) as [Hf Hc].
  rewrite lines_printAlbums. repeat split; [done | done |].
  destruct albums as [| a rest]; [done |]. cbn [length]. by rewrite length_fmap.
Qed.

(** X3. On a last page (empty next-page token) the list command logs
    its heading, the two lines of the use case with the number of
    albums, and the albums; it logs no next-page line, and it leaves the
    repository in the state the one call produced. *)
Theorem list_last_page_log {S} (h : handler domain.AlbumRepository S) (s s1 : S)
    (albums : list domain.Album) :
  h _ domain.ListAlbums s = (Ok (domain.mkAlbumsResponse albums ""), s1) ->
  let run := exec h delivery.HandleListAlbums s in
  final run = s1 /\
  lines (trace run) =
    ["--- Listing Albums ---"; "Fetching albums...";
     "Successfully fetched " +:+ pretty (length albums) +:+ " albums"] ++
    match albums with
    | [] => ["No albums found."]
    | _ => "Albums:" :: (albumLine <$> albums)
    end.
Proof.
  intros Hl. cbn zeta. unfold delivery.HandleListAlbums, usecase.ListAlbums.
  run. rewrite Hl. run. cbn [domain.NextPageToken domain.Albums].
  rewrite !decide_False by (intros H; by apply H). run.
  destruct (exec_printAlbums h albums s1) as [Hf _].
  split; [done |]. read. by rewrite lines_printAlbums, ?app_nil_r.
Qed.

(** The mock transport of the end-to-end test: two albums and no token. *)
Lemma list_last_page_log_witness :
  let albums := [domain.mkAlbum "1" "A"; domain.mkAlbum "2" "B"] in
  lines (trace (exec sample.scripted delivery.HandleListAlbums
                  [domain.mkAlbumsResponse albums ""])) =
    ["--- Listing Albums ---"; "Fetching albums..."; "Successfully fetched 2 albums";
     "Albums:"; "- A (1)"; "- B (2)"].
Proof.
  exact (proj2 (list_last_page_log sample.scripted
           [domain.mkAlbumsResponse [domain.mkAlbum "1" "A"; domain.mkAlbum "2" "B"] ""]
           [] [domain.mkAlbum "1" "A"; domain.mkAlbum "2" "B"] eq_refl)).
Defined.

(** X4. When the repository fails to list, the list command logs the
    error twice (once in the use case, once in the command), calls
    nothing else and ends: there is no second attempt and no page fetch. *)
Theorem list_failure_stops {S} (h : handler domain.AlbumRepository S) (s s1 : S)
    (e : error) :
  h _ domain.ListAlbums s = (Err e, s1) ->
  exec h delivery.HandleListAlbums s =
    mkRun tt s1
      [Line "--- Listing Albums ---"; Line "Fetching albums...";
       Called domain.ListAlbums (Err e);
       Line ("Failed to fetch albums: " +:+ e);
       Line ("Failed to list albums: " +:+ e)].
Proof.
  intros Hl. unfold delivery.HandleListAlbums, usecase.ListAlbums.
  run. rewrite Hl. by run.
Qed.

(** The scripted repository with no page to give. *)
Lemma list_failure_stops_witness :
  calls (trace (exec sample.scripted delivery.HandleListAlbums [])) =
    [existT _ domain.ListAlbums] /\
  lines (trace (exec sample.scripted delivery.HandleListAlbums [])) =
    ["--- Listing Albums ---"; "Fetching albums...";
     "Failed to fetch albums: no more pages"; "Failed to list albums: no more pages"].
Proof.
  rewrite (list_failure_stops sample.scripted [] [] "no more pages" eq_refl).
  split; reflexivity.
Defined.

(** X5. The next-page command makes the one call [FetchNextPage token].
    For a page with albums it logs their number and then prints them;
    for a page without albums it prints nothing about albums, not even
    the line [No albums found.] that the list command would log. *)
Theorem next_page_log {S} (h : handler domain.AlbumRepository S) (s s1 : S)
    (token : string) (page : domain.AlbumsResponse) :
  h _ (domain.FetchNextPage token) s = (Ok page, s1) ->
  let run := exec h (delivery.HandleNextPage token) s in
  let n := length (domain.Albums page) in
  calls (trace run) = [existT _ (domain.FetchNextPage token)] /\
  lines (trace run) =
    ["--- Fetching Next Page ---"; "Fetching next page of albums...";
     "Successfully fetched " +:+ pretty n +:+ " albums from next page"] ++
    match domain.Albums page with
    | [] => []
    | albums =>
        ("Found " +:+ pretty n +:+ " albums on next page:") :: "Albums:" ::
        (albumLine <$> albums)
    end.
Proof.
  intros Hf. cbn zeta. unfold delivery.HandleNextPage, usecase.FetchNextPage.
  run. rewrite Hf. run.
  destruct (domain.Albums page) as [| a rest] eqn:Ha.
  - rewrite decide_False by (simpl; lia). by run.
  - rewrite decide_True by (simpl; lia). run. rewrite <- Ha.
    destruct (exec_printAlbums h (domain.Albums page) s1) as [_ Hc].
    split.
    + count. by rewrite Hc.
    + read. rewrite lines_printAlbums, ?app_nil_r. by rewrite Ha.
Qed.

(** An empty page from the scripted repository. *)
Lemma next_page_log_witness :
  lines (trace (exec sample.scripted (delivery.HandleNextPage "XYZ")
                  [domain.mkAlbumsResponse [] ""])) =
    ["--- Fetching Next Page ---"; "Fetching next page of albums...";
     "Successfully fetched 0 albums from next page"].
Proof.
  exact (proj2 (next_page_log sample.scripted [domain.mkAlbumsResponse [] ""] []
                  "XYZ" (domain.mkAlbumsResponse [] "") eq_refl)).
Defined.

(** ** The album transport on the wire *)

Lemma readAndParseResponse_quiet `{Wire B} {S} (c : handler (http.ClientE B) S)
    (resp : http.Response B) (s : S) :
  let run := exec c (repository.readAndParseResponse resp) s in
  final run = s /\ sent (trace run) = [].
Proof.
  cbn zeta. unfold repository.readAndParseResponse.
  case_decide; [done |].
  destruct (io_ReadAll _) as [body | e]; run; [| done].
  destruct (json_Unmarshal_AlbumsResponse body); by run.
Qed.

(** X6. Every operation of the transport is attempted once: it sends one
    request when the request can be built and none otherwise, whatever
    the answer is (no retry after a failure or a bad status).  The
    request is a GET of the collection, of the collection with the page
    token appended verbatim, or of the album by id, or a POST of the
    encoded document; each carries the JSON content type. *)
Theorem transport_attempts_once `{Wire B} {S} (c : handler (http.ClientE B) S) (s : S)
    (id title token : string) :
  let built url := if url_Parse url is None then [getRequest url] else [] in
  sent (trace (exec c repository.ListAlbums s)) = built repository.albumsEndpoint /\
  sent (trace (exec c (repository.FetchNextPage token) s)) =
    built (repository.albumsEndpoint +:+ "?pageToken=" +:+ token) /\
  sent (trace (exec c (repository.GetAlbumByID id) s)) =
    built (repository.albumsEndpoint +:+ "/" +:+ id) /\
  sent (trace (exec c (repository.CreateAlbum title) s)) =
    match json_Marshal (JObject "album" (JObject "title" (JString title))),
          url_Parse repository.albumsEndpoint with
    | Ok body, None => [postRequest body]
    | _, _ => []
    end.
Proof.
  cbn zeta. repeat split.
  - unfold repository.ListAlbums, repository.makeAlbumsRequest, repository.NewRequest.
    destruct (url_Parse _); run; [done |].
    destruct (c _ _ s) as [[resp | e] s1]; run; [| done].
    destruct (readAndParseResponse_quiet c resp s1) as [_ Hq]. wire. by rewrite Hq.
  - unfold repository.FetchNextPage, repository.makeAlbumsRequest, repository.NewRequest.
    destruct (url_Parse _); run; [done |].
    destruct (c _ _ s) as [[resp | e] s1]; run; [| done].
    destruct (readAndParseResponse_quiet c resp s1) as [_ Hq]. wire. by rewrite Hq.
  - unfold repository.GetAlbumByID, repository.NewRequest.
    destruct (url_Parse _); run; [done |].
    destruct (c _ _ s) as [[resp | e] s1]; run; [| done].
    case_decide; run; [done |].
    destruct (json_Decode_Album _); by run.
  - unfold repository.CreateAlbum, repository.NewRequest.
    destruct (json_Marshal _) as [body | e]; run; [| done].
    destruct (url_Parse _); run; [done |].
    destruct (c _ _ s) as [[resp | e] s1]; run; [| done].
    destruct (json_Decode_Album _); by run.
Qed.

(** X7. When the client cannot reach the API, each operation returns the
    client's error under its own prefix: the caller can tell from the
    message which operation failed, and the cause is kept. *)
Theorem transport_failure_is_wrapped `{Wire B} {S} (c : handler (http.ClientE B) S)
    (s : S) (id title token body : string) (e : error) :
  url_Parse repository.albumsEndpoint = None ->
  url_Parse (repository.albumsEndpoint +:+ "?pageToken=" +:+ token) = None ->
  url_Parse (repository.albumsEndpoint +:+ "/" +:+ id) = None ->
  json_Marshal (JObject "album" (JObject "title" (JString title))) = Ok body ->
  (forall req, (c _ (http.Do req) s).1 = Err e) ->
  returned (exec c repository.ListAlbums s) =
    Err ("failed to make albums request: " +:+ e) /\
  returned (exec c (repository.FetchNextPage token) s) =
    Err ("failed to fetch next page: " +:+ e) /\
  returned (exec c (repository.GetAlbumByID id) s) =
    Err ("failed to fetch album: " +:+ e) /\
  returned (exec c (repository.CreateAlbum title) s) =
    Err ("create album failed: " +:+ e).
Proof.
  intros Hu Hut Hui Hm Hdo. repeat split.
  - unfold repository.ListAlbums, repository.makeAlbumsRequest, repository.NewRequest.
    rewrite Hu. run. rewrite Hdo. by run.
  - unfold repository.FetchNextPage, repository.makeAlbumsRequest, repository.NewRequest.
    rewrite Hut. run. rewrite Hdo. by run.
  - unfold repository.GetAlbumByID, repository.NewRequest.
    rewrite Hui. run. rewrite Hdo. by run.
  - unfold repository.CreateAlbum, repository.NewRequest.
    rewrite Hm, Hu. run. rewrite Hdo. by run.
Qed.

(** A client without network. *)
Lemma transport_failure_is_wrapped_witness :
  let c := fixture.offline "dial tcp: no route to host" in
  returned (exec c repository.ListAlbums tt) =
    Err "failed to make albums request: dial tcp: no route to host" /\
  returned (exec c (repository.FetchNextPage "XYZ") tt) =
    Err "failed to fetch next page: dial tcp: no route to host" /\
  returned (exec c (repository.GetAlbumByID "1") tt) =
    Err "failed to fetch album: dial tcp: no route to host" /\
  returned (exec c (repository.CreateAlbum "holiday") tt) =
    Err "create album failed: dial tcp: no route to host".
Proof.
  exact (transport_failure_is_wrapped (fixture.offline "dial tcp: no route to host") tt
           "1" "holiday" "XYZ" "{album:{title:holiday}}" "dial tcp: no route to host"
           eq_refl eq_refl eq_refl eq_refl (fun _ => eq_refl)).
Defined.

(** X8. An id that makes the URL unacceptable to [http.NewRequest] stops
    [GetAlbumByID] before anything is sent: the run is empty, the client
    state is untouched, and the error is the request-building error
    under its prefix.  The same holds for a page token and
    [FetchNextPage], whose error is wrapped once more. *)
Theorem bad_url_sends_nothing `{Wire B} {S} (c : handler (http.ClientE B) S) (s : S)
    (id token : string) (e1 e2 : error) :
  url_Parse (repository.albumsEndpoint +:+ "/" +:+ id) = Some e1 ->
  url_Parse (repository.albumsEndpoint +:+ "?pageToken=" +:+ token) = Some e2 ->
  exec c (repository.GetAlbumByID id) s =
    mkRun (Err ("failed to create request: " +:+ e1)) s [] /\
  exec c (repository.FetchNextPage token) s =
    mkRun (Err ("failed to fetch next page: failed to create request: " +:+ e2)) s [].
Proof.
  intros Hi Ht. split.
  - unfold repository.GetAlbumByID, repository.NewRequest. by rewrite Hi.
  - unfold repository.FetchNextPage, repository.makeAlbumsRequest, repository.NewRequest.
    rewrite Ht. by run.
Qed.

(** An id and a page token with a tab in them: [url.Parse] refuses the
    control byte and names the URL it was given. *)
Lemma bad_url_sends_nothing_witness :
  let c := sample.transport (http.mkResponse 200 "200 OK" "{}") in
  @exec _ _ _ c (@repository.GetAlbumByID _ fixture.strict fixture.tabbed) tt =
    mkRun (Err ("failed to create request: parse " +:+ fixture.doubleQuote +:+
                "https://photoslibrary.googleapis.com/v1/albums/my\talbum" +:+
                fixture.doubleQuote +:+ ": net/url: invalid control character in URL"))
      tt [] /\
  @exec _ _ _ c (@repository.FetchNextPage _ fixture.strict fixture.tabbed) tt =
    mkRun (Err ("failed to fetch next page: failed to create request: parse " +:+
                fixture.doubleQuote +:+
                "https://photoslibrary.googleapis.com/v1/albums?pageToken=my\talbum" +:+
                fixture.doubleQuote +:+ ": net/url: invalid control character in URL"))
      tt [].
Proof.
  exact (@bad_url_sends_nothing _ fixture.strict _
           (sample.transport (http.mkResponse 200 "200 OK" "{}")) tt
           fixture.tabbed fixture.tabbed _ _ eq_refl eq_refl).
Defined.

(** The state in which the list command leaves the repository. *)
Lemma HandleListAlbums_final {S} (h : handler domain.AlbumRepository S) (s s1 : S)
    (page : domain.AlbumsResponse) :
  h _ domain.ListAlbums s = (Ok page, s1) ->
  final (exec h delivery.HandleListAlbums s) =
    if decide (domain.NextPageToken page = "") then s1
    else (h _ (domain.FetchNextPage (domain.NextPageToken page)) s1).2.
Proof.
  intros Hlist.
  unfold delivery.HandleListAlbums, usecase.ListAlbums.
  run. rewrite Hlist. run.
  destruct (exec_printAlbums h (domain.Albums page) s1) as [Hf Hc].
  destruct (decide (domain.NextPageToken page = "")) as [Hnil | Hmore].
  - rewrite decide_False by (intros ?; done). run.
    rewrite decide_False by (intros ?; done). by run.
  - rewrite decide_True by done. run. rewrite decide_True by done.
    unfold delivery.handleNextPage, delivery.HandleNextPage, usecase.FetchNextPage.
    run. rewrite Hf.
    destruct (h _ (domain.FetchNextPage (domain.NextPageToken page)) s1)
      as [[page2 | e2] s2]; run; [| done].
    case_decide; run; [| done].
    by destruct (exec_printAlbums h (domain.Albums page2) s2) as [Hf2 _].
Qed.

(** X9. The list command wired through the use case to the transport:
    when the API answers the first GET with status 200 and a page that
    decodes, the requests that reach the wire are that GET alone if the
    page has no next-page token, and otherwise that GET followed by one
    GET with the token as [pageToken]; the answer to the second request
    causes no third. *)
Theorem list_command_on_the_wire `{Wire B}
    (answer : http.ClientRequest -> result (http.Response B))
    (resp : http.Response B) (page : domain.AlbumsResponse) :
  let next := repository.albumsEndpoint +:+ "?pageToken=" +:+ domain.NextPageToken page in
  url_Parse repository.albumsEndpoint = None ->
  url_Parse next = None ->
  answer (getRequest repository.albumsEndpoint) = Ok resp ->
  http.StatusCode resp = 200 ->
  repository.decodedPage resp = Ok page ->
  final (exec (photos (client answer)) delivery.HandleListAlbums []) =
    if decide (domain.NextPageToken page = "") then [getRequest repository.albumsEndpoint]
    else [getRequest repository.albumsEndpoint; getRequest next].
Proof.
  intros next Hu Hn Ha H200 Hd.
  assert (Hfirst : photos (client answer) _ domain.ListAlbums [] =
                   (Ok page, [getRequest repository.albumsEndpoint])).
  { cbn [photos]. unfold repository.ListAlbums, repository.makeAlbumsRequest,
      repository.NewRequest. rewrite Hu. run. cbn [client fst snd app].
    fold (getRequest repository.albumsEndpoint). rewrite Ha.
    destruct (readAndParseResponse_quiet (client answer) resp
                [getRequest repository.albumsEndpoint]) as [Hf _].
    rewrite Hf. f_equal. rewrite readAndParseResponse_cases.
    by rewrite decide_True. }
  rewrite (HandleListAlbums_final _ _ _ _ Hfirst).
  case_decide; [done |].
  cbn [photos]. unfold repository.FetchNextPage, repository.makeAlbumsRequest,
    repository.NewRequest. fold next. rewrite Hn. run. cbn [client fst snd app].
  fold (getRequest next).
  destruct (answer (getRequest next)) as [resp2 | e2]; run; [| done].
  by destruct (readAndParseResponse_quiet (client answer) resp2
                [getRequest repository.albumsEndpoint; getRequest next]) as [Hf _].
Qed.

(** The server with two pages, whose second page names a third. *)
Lemma list_command_on_the_wire_witness :
  http.URL <$> final (exec (@photos _ fixture.paged _ (client fixture.pagedServer))
                        delivery.HandleListAlbums []) =
    ["https://photoslibrary.googleapis.com/v1/albums";
     "https://photoslibrary.googleapis.com/v1/albums?pageToken=XYZ"].
Proof.
  rewrite (@list_command_on_the_wire _ fixture.paged fixture.pagedServer
             (http.mkResponse 200 "200 OK" "first")
             (domain.mkAlbumsResponse [domain.mkAlbum "1" "A"] "XYZ")
             eq_refl eq_refl eq_refl eq_refl eq_refl).
  reflexivity.
Defined.

(** ** The OAuth use case in any environment *)

(** What the validity check does under the two conditions of a usable
    token. *)
Lemma Valid_fresh {S} (h : handler Env S) (tok : domain.Token) (s : S) :
  domain.AccessToken tok <> "" ->
  IsZero (domain.Expiry tok) = true \/
    (h _ TimeNow s).1 + 10 * Second <= domain.Expiry tok ->
  returned (exec h (oauth2.Valid (Some tok)) s) = true /\
  lines (trace (exec h (oauth2.Valid (Some tok)) s)) = [] /\
  serviceCalls (trace (exec h (oauth2.Valid (Some tok)) s)) = [].
Proof.
  intros Ha Hfresh. unfold oauth2.Valid, oauth2.expired.
  rewrite decide_False by done.
  destruct (IsZero (domain.Expiry tok)) eqn:Hz; run; [done |].
  destruct Hfresh as [? | Hfresh]; [done |].
  by rewrite bool_decide_false by (unfold oauth2.defaultExpiryDelta; lia).
Qed.

(** X10. [AuthenticateClient] only reads: in every environment its calls
    on the service are [GetClient] alone when that fails, and [GetClient]
    followed by [LoadToken] otherwise; it never exchanges a code, saves a
    token or asks for an authorization URL. *)
Theorem AuthenticateClient_only_reads {S} (h : handler Env S) (s : S) :
  serviceCalls (trace (exec h usecase.AuthenticateClient s)) =
    match (h _ (Service domain.GetClient) s).1 with
    | Err _ => [existT _ domain.GetClient]
    | Ok _ => [existT _ domain.GetClient; existT _ domain.LoadToken]
    end.
Proof.
  unfold usecase.AuthenticateClient, usecase.oauthService. run.
  destruct (h _ (Service domain.GetClient) s) as [[cfg | e] s1]; run; [| done].
  destruct (h _ (Service domain.LoadToken) s1) as [[tok [err |]] s2]; run; [done |].
  assert (Hv : serviceCalls (trace (exec h (oauth2.Valid tok) s2)) = []).
  { destruct tok as [t |]; [| done]. unfold oauth2.Valid, oauth2.expired.
    case_decide; [done |]. destruct (IsZero _); run; done. }
  tally. rewrite Hv.
  destruct (returned _); run; done.
Qed.

(** X11. A stored token with a non-empty access token whose expiry is
    unset or at least ten seconds after the reading of the clock is
    accepted: [AuthenticateClient] returns the config and logs the
    valid-token line. *)
Theorem valid_token_is_accepted {S} (h : handler Env S) (s s1 s2 : S)
    (cfg : domain.Config) (tok : domain.Token) :
  h _ (Service domain.GetClient) s = (Ok cfg, s1) ->
  h _ (Service domain.LoadToken) s1 = ((Some tok, None), s2) ->
  domain.AccessToken tok <> "" ->
  IsZero (domain.Expiry tok) = true \/
    (h _ TimeNow s2).1 + 10 * Second <= domain.Expiry tok ->
  let run := exec h usecase.AuthenticateClient s in
  returned run = Ok cfg /\
  lines (trace run) =
    ["Starting OAuth2 authentication..."; "Valid token found, authentication successful"].
Proof.
  intros Hc Hl Ha Hfresh. cbn zeta.
  destruct (Valid_fresh h tok s2 Ha Hfresh) as (Hv & Hvl & _).
  unfold usecase.AuthenticateClient, usecase.oauthService. run.
  rewrite Hc. run. rewrite Hl. run. rewrite Hv. run. read. by rewrite Hvl.
Qed.

(** The valid token of the use case tests, good for one more hour, on a
    disk that holds it. *)
Lemma valid_token_is_accepted_witness :
  lines (trace (exec (appEnv sample.repo) usecase.AuthenticateClient fixture.authorized)) =
    ["Starting OAuth2 authentication..."; "Valid token found, authentication successful"].
Proof.
  refine (proj2 (valid_token_is_accepted (appEnv sample.repo)
                   fixture.authorized fixture.authorized fixture.authorized
                   sample.testConfig sample.mockToken eq_refl eq_refl _ _)).
  - discriminate.
  - right. vm_compute. discriminate.
Defined.

(** X12. What [CompleteAuthentication] returns: the error of the exchange
    if it fails, and otherwise whatever saving the exchanged token
    returns, so it is nil exactly when both steps succeed; the
    environment is left as the last call made left it. *)
Theorem CompleteAuthentication_result {S} (h : handler Env S) (code : string) (s : S) :
  let run := exec h (usecase.CompleteAuthentication code) s in
  match h _ (Service (domain.ExchangeCode code)) s with
  | (Err e, s1) => returned run = Some e /\ final run = s1
  | (Ok tok, s1) =>
      returned run = (h _ (Service (domain.SaveToken tok)) s1).1 /\
      final run = (h _ (Service (domain.SaveToken tok)) s1).2
  end.
Proof.
  cbn zeta. unfold usecase.CompleteAuthentication, usecase.oauthService. run.
  destruct (h _ (Service (domain.ExchangeCode code)) s) as [[tok | e] s1]; run; [| done].
  destruct (h _ (Service (domain.SaveToken tok)) s1) as [[e |] s2]; run; done.
Qed.

(** ** The token store *)

Lemma with_files_same (w : World) : with_files (files w) w = w.
Proof. by destruct w. Qed.

(** [SaveToken] changes nothing of the world but its files. *)
Lemma SaveToken_only_files (r : repository.OAuthRepository) (tok : domain.Token) (w : World) :
  (repository.SaveToken r tok w).2 = with_files (files (repository.SaveToken r tok w).2) w.
Proof.
  unfold repository.SaveToken, os.Create, os.Encode, os.Write, mbind, M_bind, mret, M_ret.
  destruct (createFault w) as [e |] eqn:Hc; cbn.
  - by rewrite with_files_same.
  - by destruct (writeFault w) as [[n e] |].
Qed.

Lemma SaveToken_files (r : repository.OAuthRepository) (tok : domain.Token) (w : World) :
  createFault w = None ->
  files (repository.SaveToken r tok w).2 =
    <[repository.tokenFile :=
        match writeFault w with
        | None => marshalToken w tok +:+ newline
        | Some (n, _) => String.substring 0 n (marshalToken w tok +:+ newline)
        end]> (files w).
Proof.
  intros Hc.
  unfold repository.SaveToken, os.Create, os.Encode, os.Write, mbind, M_bind.
  rewrite Hc. cbn. rewrite lookup_insert_eq. cbn.
  destruct (writeFault w) as [[n e] |]; cbn; by rewrite insert_insert_eq.
Qed.

Lemma SaveToken_ok (r : repository.OAuthRepository) (tok : domain.Token) (w : World) :
  createFault w = None -> writeFault w = None ->
  (repository.SaveToken r tok w).1 = None.
Proof.
  intros Hc Hw.
  unfold repository.SaveToken, os.Create, os.Encode, os.Write, mbind, M_bind.
  rewrite Hc. cbn. by rewrite Hw.
Qed.

Lemma LoadToken_found (r : repository.OAuthRepository) (w : World) (content : string) :
  openFault w = None ->
  files w !! repository.tokenFile = Some content ->
  (repository.LoadToken r w).1 =
    (Some (decodeToken w content).1, (decodeToken w content).2).
Proof.
  intros Ho Hf.
  unfold repository.LoadToken, os.Open, os.Decode, mbind, M_bind, mret, M_ret.
  rewrite Ho, Hf. unfold os.File in *. rewrite Hf. cbn.
  by destruct (decodeToken w content).
Qed.

(** X13. [LoadToken] never changes the world, and its pair tells the
    three cases apart: the error of opening and no token when the file
    cannot be opened (a fixed not-found message when it is missing), and
    otherwise the decoded token together with the decoding error, if
    any. *)
Theorem LoadToken_cases (r : repository.OAuthRepository) (w : World) :
  repository.LoadToken r w =
    (match openFault w with
     | Some e => (None, Some e)
     | None =>
         match files w !! repository.tokenFile with
         | None => (None, Some "open token.json: no such file or directory")
         | Some content =>
             (Some (decodeToken w content).1, (decodeToken w content).2)
         end
     end, w).
Proof.
  unfold repository.LoadToken, os.Open, os.Decode, mbind, M_bind, mret, M_ret.
  destruct (openFault w); [done |].
  destruct (files w !! repository.tokenFile) as [content |] eqn:Hf; [| done].
  unfold os.File in *. rewrite Hf. cbn. by destruct (decodeToken w content).
Qed.

(** X14. Saving and loading round-trip: on a disk without faults, and
    for a token that the JSON codec reads back from its own encoding,
    [SaveToken] succeeds and the next [LoadToken] returns that token and
    no error, whatever the token file held before. *)
Theorem save_then_load (r : repository.OAuthRepository) (tok : domain.Token) (w : World) :
  createFault w = None -> writeFault w = None -> openFault w = None ->
  decodeToken w (marshalToken w tok +:+ newline) = (tok, None) ->
  let saved := repository.SaveToken r tok w in
  saved.1 = None /\
  (repository.LoadToken r saved.2).1 = (Some tok, None).
Proof.
  intros Hc Hw Ho Hrt. cbn zeta. split; [by apply SaveToken_ok |].
  pose proof (SaveToken_files r tok w Hc) as Hf. rewrite Hw in Hf.
  rewrite (LoadToken_found r _ (marshalToken w tok +:+ newline)).
  - rewrite (SaveToken_only_files r tok w). cbn [with_files decodeToken]. by rewrite Hrt.
  - rewrite (SaveToken_only_files r tok w). by cbn.
  - by rewrite Hf, lookup_insert_eq.
Qed.

(** The token of the mock exchange saved over the expired one. *)
Lemma save_then_load_witness :
  let saved := repository.SaveToken sample.repo sample.mockToken (sample.world []) in
  saved.1 = None /\
  (repository.LoadToken sample.repo saved.2).1 = (Some sample.mockToken, None).
Proof.
  exact (save_then_load sample.repo sample.mockToken (sample.world [])
           eq_refl eq_refl eq_refl eq_refl).
Defined.

(** X15. [SaveToken] touches no file but the token file, whether it
    succeeds or fails. *)
Theorem SaveToken_touches_only_the_token_file (r : repository.OAuthRepository)
    (tok : domain.Token) (w : World) (name : string) :
  name <> repository.tokenFile ->
  files (repository.SaveToken r tok w).2 !! name = files w !! name.
Proof.
  intros Hn. destruct (createFault w) as [e |] eqn:Hc.
  - unfold repository.SaveToken, os.Create, mbind, M_bind. by rewrite Hc.
  - rewrite SaveToken_files by done. by rewrite lookup_insert_ne.
Qed.

(** The credentials file survives a save. *)
Lemma SaveToken_touches_only_the_token_file_witness :
  files (repository.SaveToken sample.repo sample.mockToken fixture.installed).2
    !! "credentials.json" = Some "{installed}".
Proof.
  rewrite (SaveToken_touches_only_the_token_file sample.repo sample.mockToken
             fixture.installed "credentials.json");
    [reflexivity | discriminate].
Defined.

(** X16. The last save wins: when the file can be created, saving a
    second token after a first leaves the files exactly as saving the
    second alone would, so nothing of the first record remains (the
    truncation by [os.Create] sees to it, also under a write fault). *)
Theorem SaveToken_last_write_wins (r : repository.OAuthRepository)
    (tok1 tok2 : domain.Token) (w : World) :
  createFault w = None ->
  files (repository.SaveToken r tok2 (repository.SaveToken r tok1 w).2).2 =
  files (repository.SaveToken r tok2 w).2.
Proof.
  intros Hc.
  assert (Hsame : createFault (repository.SaveToken r tok1 w).2 = None /\
                  writeFault (repository.SaveToken r tok1 w).2 = writeFault w /\
                  marshalToken (repository.SaveToken r tok1 w).2 = marshalToken w).
  { rewrite (SaveToken_only_files r tok1 w). by cbn. }
  destruct Hsame as (Hc' & Hw' & Hm').
  rewrite (SaveToken_files r tok2 _ Hc'), (SaveToken_files r tok2 w Hc),
    (SaveToken_files r tok1 w Hc), Hw', Hm'.
  by rewrite insert_insert_eq.
Qed.

(** A long record saved first, a short one after it. *)
Lemma SaveToken_last_write_wins_witness :
  files (repository.SaveToken sample.repo sample.mockToken
           (repository.SaveToken sample.repo sample.expiredToken (sample.world [])).2).2
    !! repository.tokenFile =
  Some (sample.marshal sample.mockToken +:+ newline).
Proof.
  rewrite (SaveToken_last_write_wins sample.repo sample.expiredToken sample.mockToken
             (sample.world []) eq_refl).
  reflexivity.
Defined.

(** ** The use case on the repository *)

(** [CompleteAuthentication] on the world: the answer of the token
    endpoint, then the save. *)
Lemma CompleteAuthentication_world (r : repository.OAuthRepository) (code : string)
    (w : World) :
  let run := exec (appEnv r) (usecase.CompleteAuthentication code) w in
  match tokenEndpoint w code with
  | Err e =>
      returned run = Some e /\ final run = w /\
      serviceCalls (trace run) = [existT _ (domain.ExchangeCode code)]
  | Ok tok =>
      returned run = (repository.SaveToken r tok w).1 /\
      final run = (repository.SaveToken r tok w).2 /\
      serviceCalls (trace run) =
        [existT _ (domain.ExchangeCode code); existT _ (domain.SaveToken tok)]
  end.
Proof.
  cbn zeta. unfold usecase.CompleteAuthentication, usecase.oauthService. run.
  cbn [appEnv service repository.ExchangeCode fst snd].
  destruct (tokenEndpoint w code) as [tok | e]; run; [| done].
  cbn [appEnv service].
  destruct (repository.SaveToken r tok w) as [[e |] w1]; run; done.
Qed.

(** X17. Completing and then authenticating: after a successful
    [CompleteAuthentication] on a disk without faults, for a token that
    the codec reads back and that is usable at the time, the next
    [AuthenticateClient] finds that token and takes the valid-token
    path. *)
Theorem complete_then_authenticate (r : repository.OAuthRepository) (code : string)
    (tok : domain.Token) (w : World) :
  tokenEndpoint w code = Ok tok ->
  createFault w = None -> writeFault w = None -> openFault w = None ->
  decodeToken w (marshalToken w tok +:+ newline) = (tok, None) ->
  domain.AccessToken tok <> "" ->
  IsZero (domain.Expiry tok) = true \/ now w + 10 * Second <= domain.Expiry tok ->
  let first := exec (appEnv r) (usecase.CompleteAuthentication code) w in
  let again := exec (appEnv r) usecase.AuthenticateClient (final first) in
  returned first = None /\
  returned again = Ok (repository.config r) /\
  lines (trace again) =
    ["Starting OAuth2 authentication..."; "Valid token found, authentication successful"].
Proof.
  intros Hx Hc Hw Ho Hrt Ha Hfresh. cbn zeta.
  pose proof (CompleteAuthentication_world r code w) as H. rewrite Hx in H.
  destruct H as (Hret & Hfin & _). rewrite Hret, Hfin.
  split; [by apply SaveToken_ok |].
  set (w1 := (repository.SaveToken r tok w).2).
  assert (Hw1 : w1 = with_files (files w1) w) by apply SaveToken_only_files.
  assert (Hload : repository.LoadToken r w1 = ((Some tok, None), w1)).
  { pose proof (LoadToken_world r w1) as Hsame.
    pose proof (LoadToken_found r w1 (marshalToken w tok +:+ newline)) as Hl.
    rewrite Hw1 in Hl at 1 2 4 5. cbn [with_files openFault files decodeToken] in Hl.
    rewrite Hrt in Hl. specialize (Hl Ho).
    unfold w1 in Hl at 1. rewrite SaveToken_files, Hw, lookup_insert_eq in Hl by done.
    specialize (Hl eq_refl).
    destruct (repository.LoadToken r w1) as [x w2]. cbn in Hl, Hsame. by subst. }
  assert (Hv : returned (exec (appEnv r) (oauth2.Valid (Some tok)) w1) = true /\
               lines (trace (exec (appEnv r) (oauth2.Valid (Some tok)) w1)) = []).
  { destruct (Valid_fresh (appEnv r) tok w1 Ha) as (Hv & Hl & _); [| done].
    cbn [appEnv fst]. rewrite Hw1. done. }
  destruct Hv as [Hv Hvl].
  unfold usecase.AuthenticateClient, usecase.oauthService. run.
  change (appEnv r _ (Service domain.GetClient) w1) with (Ok (repository.config r), w1). run.
  change (appEnv r _ (Service domain.LoadToken)) with (repository.LoadToken r).
  rewrite Hload. run. rewrite Hv. run. read. by rewrite Hvl.
Qed.

(** The sample world: the endpoint accepts the code and the token it
    gives is good for an hour. *)
Lemma complete_then_authenticate_witness :
  let first := exec (appEnv sample.repo) (usecase.CompleteAuthentication "test-auth-code")
                (sample.world []) in
  let again := exec (appEnv sample.repo) usecase.AuthenticateClient (final first) in
  returned first = None /\
  returned again = Ok sample.testConfig /\
  lines (trace again) =
    ["Starting OAuth2 authentication..."; "Valid token found, authentication successful"].
Proof.
  apply (complete_then_authenticate sample.repo "test-auth-code" sample.mockToken
           (sample.world [])); try reflexivity.
  - discriminate.
  - right. vm_compute. discriminate.
Defined.

(** X18. When the code is exchanged but the token file cannot be
    created, [CompleteAuthentication] returns the wrapped creation error
    and the world is exactly as before: the new token is lost and the
    old token file is intact. *)
Theorem lost_token_keeps_old_file (r : repository.OAuthRepository) (code : string)
    (tok : domain.Token) (e : error) (w : World) :
  tokenEndpoint w code = Ok tok ->
  createFault w = Some e ->
  let run := exec (appEnv r) (usecase.CompleteAuthentication code) w in
  returned run = Some ("failed to create token file: " +:+ e) /\
  final run = w.
Proof.
  intros Hx Hc. cbn zeta.
  pose proof (CompleteAuthentication_world r code w) as H. rewrite Hx in H.
  unfold repository.SaveToken, os.Create, mbind, M_bind in H. rewrite Hc in H.
  by destruct H as (? & ? & _).
Qed.

(** A read-only disk. *)
Lemma lost_token_keeps_old_file_witness :
  let run := exec (appEnv sample.repo) (usecase.CompleteAuthentication "test-auth-code")
               fixture.readOnly in
  returned run =
    Some "failed to create token file: open token.json: read-only file system" /\
  final run = fixture.readOnly.
Proof.
  exact (lost_token_keeps_old_file sample.repo "test-auth-code" sample.mockToken
           "open token.json: read-only file system" fixture.readOnly eq_refl eq_refl).
Defined.

(** X25. A repository built by [NewOAuthRepository] carries the config
    that [google.ConfigFromJSON] parsed from the credentials file with
    the three Photos scopes; building it changes nothing on disk, and
    [AuthenticateClient] on it returns that config. *)
Theorem NewOAuthRepository_then_authenticate
    (ConfigFromJSON : string -> list string -> result domain.Config)
    (repo : repository.OAuthRepository) (w w' : World) :
  repository.NewOAuthRepository ConfigFromJSON w = (Ok repo, w') ->
  w' = w /\
  (exists b, files w !! "credentials.json" = Some b /\
             ConfigFromJSON b repository.scopes = Ok (repository.config repo)) /\
  returned (exec (appEnv repo) usecase.AuthenticateClient w') =
    Ok (repository.config repo).
Proof.
  unfold repository.NewOAuthRepository, os.ReadFile, mbind, M_bind, mret, M_ret.
  destruct (openFault w); [done |].
  destruct (files w !! "credentials.json") as [b |] eqn:Hb; [| done].
  destruct (ConfigFromJSON b repository.scopes) as [cfg | e] eqn:Hcfg; [| done].
  intros [= <- <-]. split; [done |]. split; [by exists b |].
  by rewrite AuthenticateClient_returns_config.
Qed.

(** The sample disk with a credentials file. *)
Lemma NewOAuthRepository_then_authenticate_witness :
  exists repo,
    (repository.NewOAuthRepository fixture.configFromJSON fixture.installed).1 = Ok repo /\
    domain.Scopes (repository.config repo) = repository.scopes /\
    returned (exec (appEnv repo) usecase.AuthenticateClient fixture.installed) =
      Ok (repository.config repo).
Proof.
  eexists. split; [reflexivity |]. split; [reflexivity |].
  exact (proj2 (proj2 (NewOAuthRepository_then_authenticate fixture.configFromJSON
                         _ fixture.installed fixture.installed eq_refl))).
Defined.

(** ** The callback handler and the flow on the world *)

(** X19. The handler sends exactly one message for a request on its
    route and none for any other request, so a single callback never
    finds the channel of capacity one full. *)
Theorem handler_sends_one_signal (state : string) (r : http.Request) :
  length (final (exec chanH (usecase.callbackHandler state r) [])) =
    if decide (http.Path r = "/oauth2callback") then 1%nat else 0%nat.
Proof.
  unfold usecase.callbackHandler.
  destruct (decide (http.Path r = "/oauth2callback")); [| done].
  repeat case_decide; reflexivity.
Qed.

(** X20. A code reaches the code channel only from a request that passed
    every check: it is on the callback route, has no [error] parameter,
    carries the minted state, and the code sent is its non-empty [code]
    parameter. *)
Theorem accepted_code_passed_every_check (state code : string) (r : http.Request) :
  signalled (usecase.callbackHandler state r) = Some (http.OnCodeChan code) ->
  http.Path r = "/oauth2callback" /\
  http.Get (http.Query r) "error" = "" /\
  http.Get (http.Query r) "state" = state /\
  http.Get (http.Query r) "code" = code /\
  code <> "".
Proof.
  unfold signalled, usecase.callbackHandler.
  destruct (decide (http.Path r = "/oauth2callback")) as [Hp | Hp]; [| done].
  destruct (decide (http.Get (http.Query r) "error" ≠ "")) as [He | He]; [done |].
  destruct (decide (http.Get (http.Query r) "state" ≠ state)) as [Hs | Hs]; [done |].
  destruct (decide (http.Get (http.Query r) "code" = "")) as [Hc | Hc]; [done |].
  cbn. intros [= <-].
  repeat split; try done.
  - by destruct (decide (http.Get (http.Query r) "error" = "")).
  - by destruct (decide (http.Get (http.Query r) "state" = state)).
Qed.

(** A callback with the minted state and a code, twice over: only the
    first value of a repeated parameter counts. *)
Lemma accepted_code_passed_every_check_witness :
  let r := sample.callback [("state", ["s3cr3t"; "other"]); ("code", ["c1"; "c2"])] in
  http.Path r = "/oauth2callback" /\
  http.Get (http.Query r) "error" = "" /\
  http.Get (http.Query r) "state" = "s3cr3t" /\
  http.Get (http.Query r) "code" = "c1" /\
  "c1" <> "".
Proof.
  exact (accepted_code_passed_every_check "s3cr3t" "c1"
           (sample.callback [("state", ["s3cr3t"; "other"]); ("code", ["c1"; "c2"])])
           eq_refl).
Defined.

Lemma elsewhere_quiet (timeout : Duration) (pre : list (Duration * http.Request)) :
  Forall (fun a => http.Path a.2 <> "/oauth2callback") pre -> Forall (quiet timeout) pre.
Proof. intros H. eapply Forall_impl; [exact H |]. intros a Ha. by right. Qed.

(** Saving the token does not look at the listener. *)
Lemma SaveToken_with_listener (r : repository.OAuthRepository) (tok : domain.Token)
    (arr : list (Duration * http.Request)) (cc : option string) (ec : option error)
    (srv : option http.Server) (w : World) :
  repository.SaveToken r tok (with_listener arr cc ec srv w) =
  ((repository.SaveToken r tok w).1,
   with_listener arr cc ec srv (repository.SaveToken r tok w).2).
Proof.
  unfold repository.SaveToken, os.Create, os.Encode, os.Write, mbind, M_bind, mret, M_ret.
  cbn. destruct (createFault w); [done |]. cbn.
  by destruct (writeFault w) as [[n e] |].
Qed.

(** [CompleteAuthentication] does not look at the listener either. *)
Lemma CompleteAuthentication_with_listener (r : repository.OAuthRepository) (code : string)
    (arr : list (Duration * http.Request)) (cc : option string) (ec : option error)
    (srv : option http.Server) (w : World) :
  let moved := exec (appEnv r) (usecase.CompleteAuthentication code)
                 (with_listener arr cc ec srv w) in
  let plain := exec (appEnv r) (usecase.CompleteAuthentication code) w in
  returned moved = returned plain /\
  serviceCalls (trace moved) = serviceCalls (trace plain) /\
  files (final moved) = files (final plain).
Proof.
  cbn zeta.
  pose proof (CompleteAuthentication_world r code w) as H1.
  pose proof (CompleteAuthentication_world r code (with_listener arr cc ec srv w)) as H2.
  cbn zeta in H1, H2. cbn [with_listener tokenEndpoint] in H2.
  destruct (tokenEndpoint w code) as [tok | e];
    destruct H1 as (R1 & F1 & C1), H2 as (R2 & F2 & C2);
    rewrite R1, R2, F1, F2, C1, C2, ?SaveToken_with_listener; done.
Qed.

(** X21. Requests for other paths do not count: putting any number of
    them in front of the callbacks changes neither what the flow
    returns, nor its calls on the service, nor the files it leaves. *)
Theorem other_paths_do_not_matter (r : repository.OAuthRepository) (w : World)
    (pre : list (Duration * http.Request)) :
  listenFault w = None ->
  Forall (fun a => http.Path a.2 <> "/oauth2callback") pre ->
  let noisy := exec (appEnv r) usecase.CompleteAuthenticationWithServer (prepend pre w) in
  let plain := exec (appEnv r) usecase.CompleteAuthenticationWithServer w in
  returned noisy = returned plain /\
  serviceCalls (trace noisy) = serviceCalls (trace plain) /\
  files (final noisy) = files (final plain).
Proof.
  intros Hl Hpre. cbn zeta.
  rewrite (world_flow r (prepend pre w)) by done. rewrite (world_flow r w) by done.
  cbn zeta. cbn [returned final trace].
  assert (Hch : chosen (usecase.authState (now (prepend pre w))) (prepend pre w) =
                chosen (usecase.authState (now w)) w).
  { unfold chosen. cbn [prepend with_listener now arrivals].
    by rewrite firstSignal_quiet by by apply elsewhere_quiet. }
  rewrite Hch.
  change (now (prepend pre w)) with (now w).
  change (authCodeURL (prepend pre w)) with (authCodeURL w).
  change (shut (prepend pre w)) with (with_listener (pre ++ arrivals w) None None None w).
  change (shut w) with (with_listener (arrivals w) None None None w).
  tally.
  destruct (chosen _ w) as [code | err |]; try done.
  destruct (CompleteAuthentication_with_listener r code (pre ++ arrivals w) None None None w)
    as (R1 & C1 & F1).
  destruct (CompleteAuthentication_with_listener r code (arrivals w) None None None w)
    as (R2 & C2 & F2).
  rewrite R1, R2, C1, C2, F1, F2. done.
Qed.

(** Two requests for other paths before the callback of the sample. *)
Lemma other_paths_do_not_matter_witness :
  let granted := sample.callback
    [("state", ["random-state-1700000000"]); ("code", ["test-auth-code"])] in
  let noise := [(Second, http.mkRequest "/favicon.ico" ∅); (2 * Second, http.mkRequest "/" ∅)] in
  returned (exec (appEnv sample.repo) usecase.CompleteAuthenticationWithServer
              (sample.world (noise ++ [(3 * Second, granted)]))) =
  returned (exec (appEnv sample.repo) usecase.CompleteAuthenticationWithServer
              (sample.world [(3 * Second, granted)])).
Proof.
  cbn zeta.
  refine (proj1 (other_paths_do_not_matter sample.repo
           (sample.world [(3 * Second, sample.callback
              [("state", ["random-state-1700000000"]); ("code", ["test-auth-code"])])])
           [(Second, http.mkRequest "/favicon.ico" ∅); (2 * Second, http.mkRequest "/" ∅)]
           eq_refl _)).
  apply Forall_cons_2; [discriminate |].
  apply Forall_cons_2; [discriminate |].
  apply Forall_nil_2.
Defined.

(** One shutdown per run, in any environment. *)
Lemma flow_one_shutdown {S} (h : handler Env S) (s : S) :
  shutdowns (trace (exec h usecase.CompleteAuthenticationWithServer s)) = [5 * Second].
Proof.
  rewrite flow_run. cbn [trace]. unfold shutdowns. rewrite omap_app.
  destruct (h _ (Select (10 * Minute)) _).1 as [code | err |]; try done.
  match goal with
  | |- context [exec h (usecase.CompleteAuthentication code) ?s6] =>
      destruct (CompleteAuthentication_only_service h code s6) as (_ & Hs & _)
  end.
  unfold shutdowns in Hs. by rewrite Hs.
Qed.

(** X22. When the listener cannot start, the flow does not wait for the
    timer: it returns the listener's error under the prefix [server
    error], still shuts the server down once, exchanges nothing and
    leaves the files untouched. *)
Theorem listen_failure_is_returned (r : repository.OAuthRepository) (w : World)
    (e : error) :
  listenFault w = Some e ->
  e <> http.ErrServerClosed ->
  let run := exec (appEnv r) usecase.CompleteAuthenticationWithServer w in
  returned run = Some ("server error: " +:+ e) /\
  shutdowns (trace run) = [5 * Second] /\
  serviceCalls (trace run) =
    [existT _ (domain.GetAuthURLWithState (usecase.authState (now w)))] /\
  files (final run) = files w.
Proof.
  intros Hl He. cbn zeta.
  assert (Hgo : forall server url w0, listenFault w0 = Some e -> errChan w0 = None ->
            final (exec goH (usecase.serverGoroutine server url) w0) =
            with_listener (arrivals w0) (codeChan w0) (Some ("server error: " +:+ e)) None w0).
  { intros server url w0 Hl0 Hec. unfold usecase.serverGoroutine. run.
    cbn [goH]. rewrite Hl0. cbn [fst snd]. rewrite decide_True by done.
    run. cbn [goH send with_listener errChan fst snd]. by rewrite Hec. }
  split; [| split; [apply flow_one_shutdown |]].
  all: rewrite flow_run;
    cbn [appEnv service fst snd repository.GetAuthURLWithState];
    rewrite Hgo by done; unfold select; cbn; done.
Qed.

(** Port 8080 taken by another process. *)
Lemma listen_failure_is_returned_witness :
  returned (exec (appEnv sample.repo) usecase.CompleteAuthenticationWithServer
              sample.portTaken) =
    Some "server error: listen tcp :8080: bind: address already in use".
Proof.
  refine (proj1 (listen_failure_is_returned sample.repo sample.portTaken
                   "listen tcp :8080: bind: address already in use" eq_refl _)).
  discriminate.
Defined.

(** The first callback on the route that is in time decides the
    [select]. *)
Lemma chosen_first_callback (w : World) (pre rest : list (Duration * http.Request))
    (t : Duration) (req : http.Request) (state : string) :
  arrivals w = pre ++ (t, req) :: rest ->
  Forall (quiet (10 * Minute)) pre ->
  t < 10 * Minute ->
  http.Path req = "/oauth2callback" ->
  chosen state w =
    match spec.outcome state req with
    | spec.Success code => http.RecvCode code
    | failure => http.RecvErr (spec.message failure)
    end.
Proof.
  intros Harr Hq Ht Hp. unfold chosen.
  rewrite Harr, firstSignal_quiet by done. cbn [firstSignal].
  rewrite decide_True by done. rewrite signalled_callback by done.
  by destruct (spec.outcome state req).
Qed.

Lemma outcome_success (state code : string) (req : http.Request) :
  http.Get (http.Query req) "error" = "" ->
  http.Get (http.Query req) "state" = state ->
  http.Get (http.Query req) "code" = code ->
  code <> "" ->
  spec.outcome state req = spec.Success code.
Proof.
  intros He Hs Hc Hne. unfold spec.outcome.
  rewrite decide_False by (intros H; by apply H).
  rewrite decide_False by (intros H; by apply H).
  rewrite decide_False by congruence. by rewrite Hc.
Qed.

(** X23. From the callback to the token file: when the first callback
    in time carries the minted state and a code, the token endpoint
    accepts the code and the disk has no fault, the flow returns nil,
    its calls on the service are the URL, the exchange of that code and
    the save of the token received, and the token file holds that
    token's record. *)
Theorem callback_to_token_file (r : repository.OAuthRepository) (w : World)
    (pre rest : list (Duration * http.Request)) (t : Duration) (req : http.Request)
    (code : string) (tok : domain.Token) :
  listenFault w = None ->
  arrivals w = pre ++ (t, req) :: rest ->
  Forall (quiet (10 * Minute)) pre ->
  t < 10 * Minute ->
  http.Path req = "/oauth2callback" ->
  http.Get (http.Query req) "error" = "" ->
  http.Get (http.Query req) "state" = usecase.authState (now w) ->
  http.Get (http.Query req) "code" = code ->
  code <> "" ->
  tokenEndpoint w code = Ok tok ->
  createFault w = None -> writeFault w = None ->
  let run := exec (appEnv r) usecase.CompleteAuthenticationWithServer w in
  returned run = None /\
  serviceCalls (trace run) =
    [existT _ (domain.GetAuthURLWithState (usecase.authState (now w)));
     existT _ (domain.ExchangeCode code);
     existT _ (domain.SaveToken tok)] /\
  files (final run) = <[repository.tokenFile := marshalToken w tok +:+ newline]> (files w).
Proof.
  intros Hl Harr Hq Ht Hp He Hs Hc Hne Hx Hcf Hwf. cbn zeta.
  rewrite world_flow by done. cbn zeta.
  rewrite (chosen_first_callback w pre rest t req _ Harr Hq Ht Hp).
  rewrite (outcome_success _ code req He Hs Hc Hne).
  pose proof (CompleteAuthentication_world r code (shut w)) as H.
  cbn zeta in H. unfold shut in *. cbn [with_listener tokenEndpoint] in H.
  rewrite Hx in H. destruct H as (R & F & C).
  cbn [returned final trace]. tally.
  rewrite R, F, C, SaveToken_with_listener. cbn [fst snd with_listener files].
  rewrite SaveToken_ok, SaveToken_files by done. by rewrite Hwf.
Qed.

(** The sample callback after a request for the icon. *)
Lemma callback_to_token_file_witness :
  let granted := sample.callback
    [("state", ["random-state-1700000000"]); ("code", ["test-auth-code"])] in
  let run := exec (appEnv sample.repo) usecase.CompleteAuthenticationWithServer
               (sample.world [(Second, http.mkRequest "/favicon.ico" ∅); (2 * Second, granted)]) in
  returned run = None /\
  files (final run) !! repository.tokenFile =
    Some (sample.marshal sample.mockToken +:+ newline).
Proof.
  cbn zeta.
  pose proof (callback_to_token_file sample.repo
    (sample.world [(Second, http.mkRequest "/favicon.ico" ∅);
                   (2 * Second, sample.callback
                      [("state", ["random-state-1700000000"]); ("code", ["test-auth-code"])])])
    [(Second, http.mkRequest "/favicon.ico" ∅)] [] (2 * Second)
    (sample.callback [("state", ["random-state-1700000000"]); ("code", ["test-auth-code"])])
    "test-auth-code" sample.mockToken eq_refl eq_refl) as H.
  cbn zeta in H.
  destruct H as (Hr & _ & Hf); try reflexivity.
  - apply Forall_cons_2; [right; discriminate | apply Forall_nil_2].
  - discriminate.
  - split; [exact Hr |]. rewrite Hf. reflexivity.
Defined.

(** X24. A callback that passes every check but whose code the token
    endpoint refuses: the flow returns the error of the exchange after
    the shutdown, never calls [SaveToken], and leaves the files
    untouched. *)
Theorem rejected_code_after_callback (r : repository.OAuthRepository) (w : World)
    (pre rest : list (Duration * http.Request)) (t : Duration) (req : http.Request)
    (code : string) (e : error) :
  listenFault w = None ->
  arrivals w = pre ++ (t, req) :: rest ->
  Forall (quiet (10 * Minute)) pre ->
  t < 10 * Minute ->
  http.Path req = "/oauth2callback" ->
  http.Get (http.Query req) "error" = "" ->
  http.Get (http.Query req) "state" = usecase.authState (now w) ->
  http.Get (http.Query req) "code" = code ->
  code <> "" ->
  tokenEndpoint w code = Err e ->
  let run := exec (appEnv r) usecase.CompleteAuthenticationWithServer w in
  returned run = Some e /\
  serviceCalls (trace run) =
    [existT _ (domain.GetAuthURLWithState (usecase.authState (now w)));
     existT _ (domain.ExchangeCode code)] /\
  shutdowns (trace run) = [5 * Second] /\
  files (final run) = files w.
Proof.
  intros Hl Harr Hq Ht Hp He Hs Hc Hne Hx. cbn zeta.
  pose proof (flow_one_shutdown (appEnv r) w) as Hsd.
  rewrite world_flow in * by done. cbn zeta in *.
  rewrite (chosen_first_callback w pre rest t req _ Harr Hq Ht Hp).
  rewrite (outcome_success _ code req He Hs Hc Hne).
  pose proof (CompleteAuthentication_world r code (shut w)) as H.
  cbn zeta in H. unfold shut in *. cbn [with_listener tokenEndpoint] in H.
  rewrite Hx in H. destruct H as (R & F & C).
  rewrite (chosen_first_callback w pre rest t req _ Harr Hq Ht Hp) in Hsd.
  rewrite (outcome_success _ code req He Hs Hc Hne) in Hsd.
  cbn [returned final trace] in *. tally. rewrite R, F, C.
  repeat split; done.
Qed.

(** The sample callback with a code the endpoint does not know. *)
Lemma rejected_code_after_callback_witness :
  let stale := sample.callback
    [("state", ["random-state-1700000000"]); ("code", ["stale-code"])] in
  let run := exec (appEnv sample.repo) usecase.CompleteAuthenticationWithServer
               (sample.world [(Second, stale)]) in
  returned run = Some "oauth2: cannot fetch token: 400 Bad Request" /\
  files (final run) = files (sample.world [(Second, stale)]).
Proof.
  cbn zeta.
  pose proof (rejected_code_after_callback sample.repo
    (sample.world [(Second, sample.callback
       [("state", ["random-state-1700000000"]); ("code", ["stale-code"])])])
    [] [] Second
    (sample.callback [("state", ["random-state-1700000000"]); ("code", ["stale-code"])])
    "stale-code" "oauth2: cannot fetch token: 400 Bad Request"
    eq_refl eq_refl (Forall_nil_2 _) eq_refl eq_refl eq_refl eq_refl eq_refl) as H.
  cbn zeta in H. destruct H as (Hr & _ & _ & Hf); [discriminate | reflexivity |].
  by split.
Defined.

(** ** The get command *)

(** X28. The get command makes the one call [GetAlbumByID] with the id
    it was given; on success it logs the title in the use case and then
    the id and the title of the album returned, and on failure it logs
    the error in the use case and in the command and nothing about an
    album. *)
Theorem get_album_log {S} (h : handler domain.AlbumRepository S) (s : S) (id : string) :
  let run := exec h (delivery.HandleGetAlbum id) s in
  calls (trace run) = [existT _ (domain.GetAlbumByID id)] /\
  final run = (h _ (domain.GetAlbumByID id) s).2 /\
  lines (trace run) =
    ["--- Getting Album by ID ---"; "Fetching album with ID: " +:+ id] ++
    match (h _ (domain.GetAlbumByID id) s).1 with
    | Ok album =>
        ["Successfully fetched album: " +:+ domain.Title album;
         "Album Info:";
         "- ID: " +:+ domain.ID album;
         "- Title: " +:+ domain.Title album]
    | Err e =>
        ["Failed to fetch album " +:+ id +:+ ": " +:+ e;
         "Failed to get album: " +:+ e]
    end.
Proof.
  cbn zeta. unfold delivery.HandleGetAlbum, usecase.GetAlbumByID. run.
  destruct (h _ (domain.GetAlbumByID id) s) as [[album | e] s1]; run; done.
Qed.
